(** * GBFF to GFF3 converter: a shallow embedding of [gbff_to_gff.py]

    The development follows [src/biohelpers/gbff_to_gff.py] function by
    function: [GBFFParser.parse_location], [GBFFParser.extract_attributes],
    [GBFFParser.format_gff_attributes] and [GBFFParser.parse_gbff_file].

    Modelling conventions.
    - A Python [str] is a [string]; a character is a code point below 256
      (the Latin-1 range), so the character classes of [str.strip],
      [str.split], [str.isdigit], [int] and of the regular expressions
      [\d], [\w], [\s] are the restrictions of the Unicode classes to that
      range.  The white space that [int] skips is a smaller set than the one
      of [str.strip]: see [is_int_space].
    - Python integers are unbounded: [Z].  CPython's configurable cap on the
      number of digits accepted by [int] is not part of the model.
    - A call that can raise returns a [result]; [try ... except ValueError]
      is [try_except_ValueError].
    - The [attributes] dict is a [gmap string string].
    - The output file is the list of strings passed to [out.write], in
      order; when an exception escapes, what had been written stays. *)

From Stdlib Require Import ZArith Ascii String List Bool Lia.
From Stdlib Require Import Numbers.DecimalString.
From stdpp Require Import gmap strings.

Local Open Scope Z_scope.

(** ** Exceptions *)

Inductive exn : Type :=
| ValueError
| IndexError.

Inductive result (A : Type) : Type :=
| Ok (a : A)
| Raise (e : exn).

Arguments Ok {A} a.
Arguments Raise {A} e.

Definition bind {A B : Type} (r : result A) (k : A -> result B) : result B :=
  match r with
  | Ok a => k a
  | Raise e => Raise e
  end.

Notation "'do' x <- r ; k" := (bind r (fun x => k))
  (at level 10, x name, r at level 100, k at level 200).

(** [try: body except ValueError: handler] *)
Definition try_except_ValueError {A : Type} (body : result A) (handler : result A)
  : result A :=
  match body with
  | Raise ValueError => handler
  | other => other
  end.

(** ** Character classes (code points below 256) *)

Definition code (c : ascii) : nat := nat_of_ascii c.

Definition between (lo hi : nat) (c : ascii) : bool :=
  (lo <=? code c)%nat && (code c <=? hi)%nat.

(** Unicode decimal digits: what [\d] matches and what [int] reads. *)
Definition is_decimal (c : ascii) : bool := between 48 57 c.

Definition digit_value (c : ascii) : Z := Z.of_nat (code c) - 48.

(** [str.isspace]: tab, LF, VT, FF, CR, the separators 28..31, space,
    NEL (133) and the no-break space (160). *)
Definition is_space (c : ascii) : bool :=
  between 9 13 c || between 28 32 c || (code c =? 133)%nat || (code c =? 160)%nat.

(** The white space that [int] skips around a number: tab, LF, VT, FF, CR
    and space, and the two white-space characters above 127, NEL (133) and
    the no-break space (160), which [int] turns into spaces first.  The
    separators 28..31 are white space for [str.strip] but not for [int]. *)
Definition is_int_space (c : ascii) : bool :=
  between 9 13 c || (code c =? 32)%nat || (code c =? 133)%nat || (code c =? 160)%nat.

(** Characters for which [str.isdigit] holds: decimal digits and the
    superscripts 178, 179, 185. *)
Definition is_digit_char (c : ascii) : bool :=
  is_decimal c || (code c =? 178)%nat || (code c =? 179)%nat || (code c =? 185)%nat.

(** [\w]: alphanumeric characters ([str.isalnum]) and the underscore. *)
Definition is_word (c : ascii) : bool :=
  between 48 57 c || between 65 90 c || (code c =? 95)%nat || between 97 122 c
  || (code c =? 170)%nat || (code c =? 178)%nat || (code c =? 179)%nat
  || (code c =? 181)%nat || (code c =? 185)%nat || (code c =? 186)%nat
  || between 188 190 c || between 192 214 c || between 216 246 c
  || between 248 255 c.

Definition is_quote (c : ascii) : bool := (code c =? 34)%nat.

(** The characters that cannot be written inside a literal. *)
Definition DQUOTE : string := String (ascii_of_nat 34) EmptyString.
Definition TAB : string := String (ascii_of_nat 9) EmptyString.
Definition NL : string := String (ascii_of_nat 10) EmptyString.
Definition is_fuzzy (c : ascii) : bool := (code c =? 60)%nat || (code c =? 62)%nat.
Definition is_newline (c : ascii) : bool := (code c =? 10)%nat.

(** ** String primitives *)

Fixpoint all_chars (p : ascii -> bool) (s : string) : bool :=
  match s with
  | EmptyString => true
  | String c r => p c && all_chars p r
  end.

(** [s.startswith(p)] *)
Fixpoint startswith (s p : string) {struct p} : bool :=
  match p with
  | EmptyString => true
  | String a p' =>
      match s with
      | EmptyString => false
      | String b s' => Ascii.eqb a b && startswith s' p'
      end
  end.

(** [sub in s] *)
Fixpoint contains (sub s : string) : bool :=
  startswith s sub
  || match s with
     | EmptyString => false
     | String _ r => contains sub r
     end.

Fixpoint str_take (n : nat) (s : string) : string :=
  match n, s with
  | S k, String c r => String c (str_take k r)
  | _, _ => EmptyString
  end.

Fixpoint str_drop (n : nat) (s : string) : string :=
  match n, s with
  | S k, String _ r => str_drop k r
  | _, _ => s
  end.

(** Python slice bounds: a negative index counts from the end, and every
    index is clamped to [0, len s]. *)
Definition slice_index (len : nat) (i : Z) : nat :=
  if i <? 0 then Z.to_nat (Z.max 0 (i + Z.of_nat len))
  else Nat.min (Z.to_nat i) len.

(** [s[lo:hi]]; [None] is an omitted bound. *)
Definition slice (lo hi : option Z) (s : string) : string :=
  let n := String.length s in
  let l := match lo with Some i => slice_index n i | None => 0%nat end in
  let h := match hi with Some i => slice_index n i | None => n end in
  str_take (h - l) (str_drop l s).

(** [s[i]] *)
Definition char_at (i : nat) (s : string) : option ascii := String.get i s.

(** [s.lstrip], [s.rstrip], [s.strip] over a set of characters. *)
Fixpoint lstrip (p : ascii -> bool) (s : string) : string :=
  match s with
  | EmptyString => EmptyString
  | String c r => if p c then lstrip p r else s
  end.

Fixpoint rstrip (p : ascii -> bool) (s : string) : string :=
  match s with
  | EmptyString => EmptyString
  | String c r =>
      match rstrip p r with
      | EmptyString => if p c then EmptyString else String c EmptyString
      | r' => String c r'
      end
  end.

Definition strip_chars (p : ascii -> bool) (s : string) : string :=
  rstrip p (lstrip p s).

(** [s.strip()] *)
Definition strip (s : string) : string := strip_chars is_space s.

(** The longest prefix of [s] made of characters in [p], and the rest. *)
Fixpoint span (p : ascii -> bool) (s : string) : string * string :=
  match s with
  | EmptyString => (EmptyString, EmptyString)
  | String c r =>
      if p c then let '(a, b) := span p r in (String c a, b)
      else (EmptyString, s)
  end.

(** [s.split(sep)] for a non-empty [sep]: the pieces between the
    non-overlapping occurrences of [sep], found from left to right.
    [skip] counts the characters of a separator still to be passed. *)
Fixpoint split_skip (sep : string) (skip : nat) (s : string) : list string :=
  match s with
  | EmptyString => [EmptyString]
  | String c r =>
      match skip with
      | S k => split_skip sep k r
      | O =>
          if startswith s sep
          then EmptyString :: split_skip sep (String.length sep - 1) r
          else match split_skip sep 0 r with
               | h :: t => String c h :: t
               | [] => [String c EmptyString]
               end
      end
  end.

Definition split (sep s : string) : list string := split_skip sep 0 s.

(** [s.split(sep, 1)]: at most one cut, at the first occurrence. *)
Fixpoint split1 (sep s : string) : list string :=
  if startswith s sep then [EmptyString; str_drop (String.length sep) s]
  else match s with
       | EmptyString => [EmptyString]
       | String c r =>
           match split1 sep r with
           | h :: t => String c h :: t
           | [] => [String c EmptyString]
           end
       end.

(** [s.split()]: the maximal runs of non-whitespace characters. *)
Fixpoint split_ws (s : string) : list string :=
  match s with
  | EmptyString => []
  | String c r =>
      if is_space c then split_ws r
      else match r with
           | EmptyString => [String c EmptyString]
           | String d _ =>
               if is_space d then String c EmptyString :: split_ws r
               else match split_ws r with
                    | h :: t => String c h :: t
                    | [] => [String c EmptyString]
                    end
           end
  end.

(** [s.replace(old, new)] for a non-empty [old]. *)
Fixpoint replace_skip (old new : string) (skip : nat) (s : string) : string :=
  match s with
  | EmptyString => EmptyString
  | String c r =>
      match skip with
      | S k => replace_skip old new k r
      | O =>
          if startswith s old
          then new +:+ replace_skip old new (String.length old - 1) r
          else String c (replace_skip old new 0 r)
      end
  end.

Definition replace (old new s : string) : string := replace_skip old new 0 s.

(** [sep.join(l)] *)
Fixpoint join (sep : string) (l : list string) : string :=
  match l with
  | [] => EmptyString
  | [x] => x
  | x :: rest => x +:+ sep +:+ join sep rest
  end.

(** [s.isdigit()]: non-empty and every character is a digit. *)
Definition isdigit (s : string) : bool :=
  match s with
  | EmptyString => false
  | _ => all_chars is_digit_char s
  end.

(** [str(n)] for an integer, as the f-strings format it. *)
Definition str_of_int (n : Z) : string := NilEmpty.string_of_int (Z.to_int n).

(** ** [int(s)]

    Optional surrounding white space (the set [is_int_space]), an optional
    sign, then decimal digits in which single underscores may separate
    digits.  Anything else is a [ValueError]. *)
Fixpoint int_digits_go (acc : Z) (prev_underscore : bool) (s : string) : option Z :=
  match s with
  | EmptyString => if prev_underscore then None else Some acc
  | String c r =>
      if is_decimal c then int_digits_go (10 * acc + digit_value c) false r
      else if Ascii.eqb c "_" && negb prev_underscore then int_digits_go acc true r
      else None
  end.

Definition int_digits (s : string) : option Z :=
  match s with
  | String c r => if is_decimal c then int_digits_go (digit_value c) false r else None
  | EmptyString => None
  end.

Definition py_int (s : string) : result Z :=
  let t := strip_chars is_int_space s in
  let '(negative, body) :=
    match t with
    | String "-" r => (true, r)
    | String "+" r => (false, r)
    | _ => (false, t)
    end in
  match int_digits body with
  | Some n => Ok (if negative then - n else n)
  | None => Raise ValueError
  end.

(** ** The regular expressions of the parser *)

(** A match of [(\d+)\.\.(\d+)] starting at the first character.  Both
    groups are greedy.  The first one cannot give digits back, since it
    must be followed by a dot; the second has nothing after it, so it is
    the longest run of digits. *)
Definition range_match_here (s : string) : option (string * string) :=
  let '(d1, r1) := span is_decimal s in
  match d1, r1 with
  | String _ _, String "." (String "." r2) =>
      let '(d2, _) := span is_decimal r2 in
      match d2 with
      | String _ _ => Some (d1, d2)
      | EmptyString => None
      end
  | _, _ => None
  end.

(** [re.search(r"(\d+)\.\.(\d+)", s)]: the match at the leftmost position
    that has one; the result is [(group(1), group(2))]. *)
Fixpoint re_search_range (s : string) : option (string * string) :=
  match range_match_here s with
  | Some g => Some g
  | None =>
      match s with
      | EmptyString => None
      | String _ r => re_search_range r
      end
  end.

(** [re.sub(r"[<>]", "", s)] *)
Fixpoint re_sub_fuzzy (s : string) : string :=
  match s with
  | EmptyString => EmptyString
  | String c r => if is_fuzzy c then re_sub_fuzzy r else String c (re_sub_fuzzy r)
  end.

(** [a, b = l]: unpacking into two names raises [ValueError] unless the
    list has exactly two elements. *)
Definition unpack2 {A : Type} (l : list A) : result (A * A) :=
  match l with
  | [a; b] => Ok (a, b)
  | _ => Raise ValueError
  end.

(** ** [GBFFParser.parse_location] *)

Definition parse_location (location_str : string) : result (Z * Z * string) :=
  let wrapped := startswith location_str "complement(" in
  let strand := if wrapped then "-" else "+" in
  let location_str :=
    if wrapped then slice (Some 11) (Some (-1)) location_str else location_str in
  if startswith location_str "join(" then
    match re_search_range location_str with
    | Some (g1, g2) =>
        do start <- py_int g1;
        do end_ <- py_int g2;
        Ok (start, end_, strand)
    | None => Ok (1, 1, strand)
    end
  else if contains ".." location_str then
    try_except_ValueError
      (do parts <- unpack2 (split ".." location_str);
       do start <- py_int (re_sub_fuzzy (fst parts));
       do end_ <- py_int (re_sub_fuzzy (snd parts));
       Ok (start, end_, strand))
      (Ok (1, 1, strand))
  else
    try_except_ValueError
      (do pos <- py_int (re_sub_fuzzy location_str);
       Ok (pos, pos, strand))
      (Ok (1, 1, strand)).

(** ** [GBFFParser.extract_attributes] *)

(** The truth value of a variable that holds [None] or a string. *)
Definition truthy (v : option string) : bool :=
  match v with
  | Some (String _ _) => true
  | _ => false
  end.

Record extract_state : Type := mk_extract_state {
  attributes_of : gmap string string;
  current_qualifier : option string;
  current_value : string
}.

Definition initial_extract_state : extract_state :=
  mk_extract_state ∅ None "".

(** [if current_qualifier: attributes[current_qualifier] = current_value.strip(q)]
    where [q] is the double-quote character. *)
Definition flush (st : extract_state) : gmap string string :=
  match current_qualifier st with
  | Some q =>
      if truthy (Some q)
      then <[q := strip_chars is_quote (current_value st)]> (attributes_of st)
      else attributes_of st
  | None => attributes_of st
  end.

(** One iteration of [for line in feature_lines]. *)
Definition extract_step (st : extract_state) (line : string) : result extract_state :=
  let line := strip line in
  if startswith line "/" then
    let attributes := flush st in
    if contains "=" line then
      do kv <- unpack2 (split1 "=" (slice (Some 1) None line));
      Ok (mk_extract_state attributes (Some (fst kv)) (snd kv))
    else
      Ok (mk_extract_state attributes (Some (slice (Some 1) None line)) "")
  else
    Ok (mk_extract_state (attributes_of st) (current_qualifier st)
          (current_value st +:+ " " +:+ line)).

Fixpoint extract_loop (st : extract_state) (feature_lines : list string)
  : result extract_state :=
  match feature_lines with
  | [] => Ok st
  | line :: rest =>
      do st' <- extract_step st line;
      extract_loop st' rest
  end.

Definition extract_attributes (feature_lines : list string)
  : result (gmap string string) :=
  do st <- extract_loop initial_extract_state feature_lines;
  Ok (flush st).

(** ** [GBFFParser.format_gff_attributes] *)

(** The three chained [replace] calls applied to [product] and [note]. *)
Definition escape_value (v : string) : string :=
  replace "&" "%26" (replace "=" "%3D" (replace ";" "%3B" v)).

Definition format_gff_attributes (attributes : gmap string string)
  (feature_type : string) : string :=
  let gff_attrs : list string := [] in
  let gff_attrs :=
    match attributes !! "locus_tag" with
    | Some v => (gff_attrs ++ ["ID=" +:+ v]) ++ ["Name=" +:+ v]
    | None =>
        match attributes !! "gene" with
        | Some v => (gff_attrs ++ ["ID=" +:+ v]) ++ ["Name=" +:+ v]
        | None => gff_attrs
        end
    end in
  let gff_attrs :=
    match attributes !! "product" with
    | Some v => gff_attrs ++ ["product=" +:+ escape_value v]
    | None => gff_attrs
    end in
  let gff_attrs :=
    match attributes !! "gene" with
    | Some v =>
        if negb (String.eqb feature_type "gene")
        then gff_attrs ++ ["gene=" +:+ v]
        else gff_attrs
    | None => gff_attrs
    end in
  let gff_attrs :=
    match attributes !! "protein_id" with
    | Some v => gff_attrs ++ ["protein_id=" +:+ v]
    | None => gff_attrs
    end in
  let gff_attrs :=
    match attributes !! "translation" with
    | Some v =>
        let translation :=
          if (50 <? String.length v)%nat
          then slice None (Some 50) v +:+ "..."
          else v in
        gff_attrs ++ ["translation=" +:+ translation]
    | None => gff_attrs
    end in
  let gff_attrs :=
    match attributes !! "note" with
    | Some v => gff_attrs ++ ["note=" +:+ escape_value v]
    | None => gff_attrs
    end in
  match gff_attrs with
  | [] => "."
  | _ => join ";" gff_attrs
  end.

(** ** The feature-header pattern

    [re.match(r"     (\w+)\s+(.+)", line)], written as the backtracking
    search it is: each greedy quantifier first tries to str_take one more
    character and gives it back when the rest of the pattern fails. *)

(** [(.+)] at the end of the pattern: the longest run without a newline. *)
Definition dot_plus (s : string) : option string :=
  match fst (span (fun c => negb (is_newline c)) s) with
  | EmptyString => None
  | g => Some g
  end.

(** [\s+(.+)] *)
Fixpoint spaces_then_rest (s : string) : option string :=
  match s with
  | EmptyString => None
  | String c r =>
      if is_space c then
        match spaces_then_rest r with
        | Some g => Some g
        | None => dot_plus r
        end
      else None
  end.

(** [(\w+)\s+(.+)] *)
Fixpoint word_then_rest (s : string) : option (string * string) :=
  match s with
  | EmptyString => None
  | String c r =>
      if is_word c then
        match word_then_rest r with
        | Some (w, g) => Some (String c w, g)
        | None =>
            match spaces_then_rest r with
            | Some g => Some (String c EmptyString, g)
            | None => None
            end
        end
      else None
  end.

(** The result is [(group(1), group(2))]. *)
Definition feature_match (line : string) : option (string * string) :=
  if startswith line "     " then word_then_rest (str_drop 5 line) else None.

(** ** [GBFFParser.parse_gbff_file]: the feature loop *)

Definition spaces21 : string := "                     ".

(** The condition of the inner [while] on [lines[i]]. *)
Definition is_qualifier_line (l : string) : bool :=
  startswith l spaces21
  || ((20 <? String.length l)%nat
      && String.eqb (strip (slice None (Some 21) l)) "").

(** [len(line) > 5 and line[5] != " "] *)
Definition header_candidate (line : string) : bool :=
  (5 <? String.length line)%nat
  && match char_at 5 line with
     | Some c => negb (Ascii.eqb c " ")
     | None => false
     end.

Definition is_stop_line (line : string) : bool :=
  startswith line "ORIGIN" || startswith line "//".

(** The inner loop:
    [while i < len(lines) and (...): feature_lines.append(lines[i]); i += 1].
    The result is [(feature_lines, i)] on exit; [None] when the fuel runs out. *)
Fixpoint collect_loop (fuel : nat) (lines : list string) (i : nat)
  (feature_lines : list string) : option (list string * nat) :=
  match fuel with
  | O => None
  | S fuel' =>
      match lines !! i with
      | Some l =>
          if is_qualifier_line l
          then collect_loop fuel' lines (S i) (feature_lines ++ [l])
          else Some (feature_lines, i)
      | None => Some (feature_lines, i)
      end
  end.

(** What a run of the loop leaves behind: the values produced, in order,
    and the exception that ended it, if any. *)
Definition trace (A : Type) : Type := (list A * option exn)%type.

Definition emit_then {A : Type} (a : A) (t : option (trace A)) : option (trace A) :=
  match t with
  | Some (l, e) => Some (a :: l, e)
  | None => None
  end.

Section FeatureLoop.
(** What the body of the loop does with a feature once its type, location
    and qualifier lines are known.  The program formats and writes a GFF
    line; the scanner alone is obtained with [emit] returning the triple. *)
Context {A : Type}.
Variable emit : string -> string -> list string -> result A.

(** [i = 0; while i < len(lines): ...]  One unit of fuel per iteration. *)
Fixpoint feature_loop (fuel : nat) (lines : list string) (i : nat)
    (in_features : bool) : option (trace A) :=
    match fuel with
    | O => None
    | S fuel' =>
        match lines !! i with
        | None => Some ([], None)
        | Some line =>
            if startswith line "FEATURES" then
              feature_loop fuel' lines (i + 1) true
            else if is_stop_line line then
              Some ([], None)
            else if in_features && header_candidate line then
              match feature_match line with
              | Some (feature_type, location) =>
                  let i := (i + 1)%nat in
                  match collect_loop (S (length lines)) lines i [] with
                  | None => None
                  | Some (feature_lines, i) =>
                      let i := (i - 1)%nat in
                      match emit feature_type location feature_lines with
                      | Raise e => Some ([], Some e)
                      | Ok a => emit_then a (feature_loop fuel' lines (i + 1) in_features)
                      end
                  end
              | None => feature_loop fuel' lines (i + 1) in_features
              end
            else feature_loop fuel' lines (i + 1) in_features
        end
    end.

Definition scan_record (lines : list string) : option (trace A) :=
  feature_loop (S (length lines)) lines 0 false.
End FeatureLoop.

(** The scanner on its own: the features in the order the loop meets them. *)
Definition feature : Type := (string * string * list string)%type.

Definition scan_features (lines : list string) : option (trace feature) :=
  scan_record (fun ty loc qs => Ok (ty, loc, qs)) lines.

(** ** [GBFFParser.parse_gbff_file]: records and output *)

(** [l[i]] *)
Definition index {A : Type} (l : list A) (i : nat) : result A :=
  match l !! i with
  | Some a => Ok a
  | None => Raise IndexError
  end.

(** One iteration of the first [for line in lines]; the state is
    [(seqid, seq_length)]. *)
Definition header_step (st : option string * option string) (line : string)
  : result (option string * option string) :=
  let '(seqid, seq_length) := st in
  if startswith line "LOCUS" then
    let parts := split_ws line in
    if (3 <=? length parts)%nat then
      do p1 <- index parts 1;
      do p2 <- index parts 2;
      Ok (Some p1, Some p2)
    else Ok st
  else if startswith line "ACCESSION" then
    if negb (truthy seqid) then
      do p1 <- index (split_ws line) 1;
      Ok (Some p1, seq_length)
    else Ok st
  else Ok st.

Fixpoint header_loop (st : option string * option string) (lines : list string)
  : result (option string * option string) :=
  match lines with
  | [] => Ok st
  | line :: rest =>
      do st' <- header_step st line;
      header_loop st' rest
  end.

(** [if not seqid: seqid = "unknown"] *)
Definition seqid_or_unknown (seqid : option string) : string :=
  match seqid with
  | Some s => if truthy seqid then s else "unknown"
  | None => "unknown"
  end.

(** The seqid of a record, as the first loop and the default leave it. *)
Definition record_seqid (lines : list string) : result string :=
  do st <- header_loop (None, None) lines;
  Ok (seqid_or_unknown (fst st)).

(** [if seq_length and seq_length.isdigit(): out.write(...)] *)
Definition sequence_region (seqid : string) (seq_length : option string) : list string :=
  match seq_length with
  | Some len =>
      if truthy seq_length && isdigit len
      then ["##sequence-region " +:+ seqid +:+ " 1 " +:+ len +:+ NL]
      else []
  | None => []
  end.

Definition phase_of (feature_type : string) : string :=
  if negb (String.eqb feature_type "CDS") then "." else "0".

(** The body of the loop from [parse_location] to the f-string. *)
Definition gff_line (seqid feature_type location : string)
  (feature_lines : list string) : result string :=
  do loc <- parse_location location;
  do attributes <- extract_attributes feature_lines;
  let start := fst (fst loc) in
  let end_ := snd (fst loc) in
  let strand := snd loc in
  let source := "GenBank" in
  let score := "." in
  let phase := phase_of feature_type in
  let gff_attributes := format_gff_attributes attributes feature_type in
  Ok (seqid +:+ TAB +:+ source +:+ TAB +:+ feature_type +:+ TAB
      +:+ str_of_int start +:+ TAB +:+ str_of_int end_ +:+ TAB +:+ score +:+ TAB
      +:+ strand +:+ TAB +:+ phase +:+ TAB +:+ gff_attributes +:+ NL).

Definition writes_then {A : Type} (pre : list A) (t : option (trace A))
  : option (trace A) :=
  match t with
  | Some (l, e) => Some (pre ++ l, e)
  | None => None
  end.

(** The body of [for record in records] for a record that is not blank. *)
Definition process_record (record : string) : option (trace string) :=
  let lines := split NL record in
  match header_loop (None, None) lines with
  | Raise e => Some ([], Some e)
  | Ok (seqid, seq_length) =>
      let seqid := seqid_or_unknown seqid in
      writes_then (sequence_region seqid seq_length)
        (scan_record (gff_line seqid) lines)
  end.

(** [if not record.strip(): continue] *)
Definition is_blank (record : string) : bool := String.eqb (strip record) "".

Fixpoint records_loop (records : list string) : option (trace string) :=
  match records with
  | [] => Some ([], None)
  | record :: rest =>
      if is_blank record then records_loop rest
      else
        match process_record record with
        | None => None
        | Some (w, Some e) => Some (w, Some e)
        | Some (w, None) => writes_then w (records_loop rest)
        end
  end.

Definition RECORD_SEP : string := "//" +:+ NL.

(** [records = content.split(sep)] with the blank chunks skipped. *)
Definition split_records (content : string) : list string :=
  List.filter (fun r => negb (is_blank r)) (split RECORD_SEP content).

(** The strings written to the output file for the text [content], and
    the exception that escaped, if any. *)
Definition parse_gbff_file (content : string) : option (trace string) :=
  writes_then ["##gff-version 3" +:+ NL] (records_loop (split RECORD_SEP content)).

(** * Specification-level definitions

    The definitions below are not translations of the program: they state
    what the program is compared with. *)

(** The number written by a string of decimal digits, read from an
    accumulator (Horner's rule). *)
Fixpoint decimal_from (acc : Z) (s : string) : Z :=
  match s with
  | EmptyString => acc
  | String c r => decimal_from (10 * acc + digit_value c) r
  end.

Definition decimal_value (s : string) : Z := decimal_from 0 s.

(** A non-empty string of decimal digits. *)
Definition is_number (s : string) : bool :=
  match s with
  | EmptyString => false
  | _ => all_chars is_decimal s
  end.

(** The strand, as the [complement(] prefix alone decides it. *)
Definition strand_of (location_str : string) : string :=
  if startswith location_str "complement(" then "-" else "+".

(** The expression left once the wrapper is removed. *)
Definition location_body (location_str : string) : string :=
  if startswith location_str "complement("
  then slice (Some 11) (Some (-1)) location_str
  else location_str.

Definition is_ok {A : Type} (r : result A) : bool :=
  match r with
  | Ok _ => true
  | Raise _ => false
  end.

(** The body can be read as a join, as a range or as a single position. *)
Definition parsable (body : string) : bool :=
  if startswith body "join(" then
    match re_search_range body with Some _ => true | None => false end
  else if contains ".." body then
    match split ".." body with
    | [x; y] => is_ok (py_int (re_sub_fuzzy x)) && is_ok (py_int (re_sub_fuzzy y))
    | _ => false
    end
  else is_ok (py_int (re_sub_fuzzy body)).

(** [a..b], with [a] and [b] numbers, occurs in [s] after [pre]. *)
Definition range_occurs (s pre a b rest : string) : Prop :=
  s = pre +:+ a +:+ ".." +:+ b +:+ rest
  /\ is_number a = true /\ is_number b = true.

Definition starts_with_decimal (s : string) : bool :=
  match s with
  | String c _ => is_decimal c
  | EmptyString => false
  end.


Definition no_range (s : string) : Prop :=
  forall pre a b rest, ~ range_occurs s pre a b rest.

(** The header test as the specification words it: the first five
    characters are blank and the character at index 5 is not a space. *)
Definition claimed_header (line : string) : bool :=
  String.eqb (strip (slice None (Some 5) line)) ""
  && header_candidate line.

Fixpoint take_while {A : Type} (p : A -> bool) (l : list A) : list A :=
  match l with
  | [] => []
  | x :: r => if p x then x :: take_while p r else []
  end.

Fixpoint drop_while {A : Type} (p : A -> bool) (l : list A) : list A :=
  match l with
  | [] => []
  | x :: r => if p x then drop_while p r else l
  end.

(** The feature table of a record, line by line: a line starting with
    [FEATURES] opens the table, the first line starting with [ORIGIN] or
    [//] ends the scan, and inside the table every line matched by the
    header pattern is a feature whose qualifier lines are the qualifier
    lines that follow it immediately. *)
Fixpoint scan_spec (in_features : bool) (lines : list string) : list feature :=
  match lines with
  | [] => []
  | line :: rest =>
      if startswith line "FEATURES" then scan_spec true rest
      else if is_stop_line line then []
      else if in_features then
        match feature_match line with
        | Some (ty, loc) =>
            (ty, loc, take_while is_qualifier_line rest) :: scan_spec in_features rest
        | None => scan_spec in_features rest
        end
      else scan_spec in_features rest
  end.

(** The loop body applied to the features in order, up to the first
    exception. *)
Fixpoint run_features {A : Type} (emit : string -> string -> list string -> result A)
  (fs : list feature) : trace A :=
  match fs with
  | [] => ([], None)
  | (ty, loc, qs) :: r =>
      match emit ty loc qs with
      | Raise e => ([], Some e)
      | Ok a => let '(l, e) := run_features emit r in (a :: l, e)
      end
  end.

(** The escaping of [product] and [note], character by character. *)
Definition escape_char (c : ascii) : string :=
  if Ascii.eqb c ";" then "%3B"
  else if Ascii.eqb c "=" then "%3D"
  else if Ascii.eqb c "&" then "%26"
  else String c EmptyString.

Fixpoint escape_chars (s : string) : string :=
  match s with
  | EmptyString => EmptyString
  | String c r => escape_char c +:+ escape_chars r
  end.

Definition token (key : string) (v : option string) : list string :=
  match v with
  | Some x => [key +:+ "=" +:+ x]
  | None => []
  end.

Definition truncate50 (v : string) : string :=
  if (50 <? String.length v)%nat then str_take 50 v +:+ "..." else v.

(** The tokens of the attribute column, in the order of the specification. *)
Definition spec_tokens (m : gmap string string) (feature_type : string) : list string :=
  let id := match m !! "locus_tag" with Some v => Some v | None => m !! "gene" end in
  token "ID" id ++ token "Name" id
  ++ token "product" (escape_chars <$> m !! "product")
  ++ (if String.eqb feature_type "gene" then [] else token "gene" (m !! "gene"))
  ++ token "protein_id" (m !! "protein_id")
  ++ token "translation" (truncate50 <$> m !! "translation")
  ++ token "note" (escape_chars <$> m !! "note").

Definition recognized_keys : list string :=
  ["locus_tag"; "gene"; "product"; "protein_id"; "translation"; "note"].

(** The nine columns of a feature line. *)
Definition location_of (loc : string) : Z * Z * string :=
  match parse_location loc with
  | Ok x => x
  | Raise _ => (1, 1, "+")
  end.

Definition qualifier_map (qs : list string) : gmap string string :=
  match extract_attributes qs with
  | Ok m => m
  | Raise _ => ∅
  end.

Definition feature_columns (seqid : string) (f : feature) : list string :=
  let '(ty, loc, qs) := f in
  let '(a, b, strand) := location_of loc in
  [seqid; "GenBank"; ty; str_of_int a; str_of_int b; "."; strand;
   if String.eqb ty "CDS" then "0" else ".";
   format_gff_attributes (qualifier_map qs) ty].

Definition feature_line (seqid : string) (f : feature) : string :=
  join TAB (feature_columns seqid f) +:+ NL.

(** What a record contributes to the output when its header lines are read
    without an exception. *)
Definition record_output (record : string) : list string :=
  let lines := split NL record in
  match header_loop (None, None) lines with
  | Ok (seqid, seq_length) =>
      sequence_region (seqid_or_unknown seqid) seq_length
      ++ map (feature_line (seqid_or_unknown seqid)) (scan_spec false lines)
  | Raise _ => []
  end.

(** The second and third token of a [LOCUS] line that has them. *)
Definition usable_locus (line : string) : option (string * string) :=
  if startswith line "LOCUS" then
    match split_ws line with
    | _ :: p1 :: p2 :: _ => Some (p1, p2)
    | _ => None
    end
  else None.

Fixpoint last_usable_locus (lines : list string) : option (string * string) :=
  match lines with
  | [] => None
  | l :: r =>
      match last_usable_locus r with
      | Some x => Some x
      | None => usable_locus l
      end
  end.

(** The lines of a text that consist of the terminator alone. *)
Definition terminator_lines (content : string) : list string :=
  List.filter (fun l => String.eqb l "//") (split NL content).

(** Removing one leading and one trailing double quote, as the
    specification words the flush. *)
Fixpoint drop_last_quote (s : string) : string :=
  match s with
  | EmptyString => EmptyString
  | String c EmptyString => if is_quote c then EmptyString else s
  | String c r => String c (drop_last_quote r)
  end.

Definition strip_one_quote (v : string) : string :=
  drop_last_quote
    (match v with
     | String c r => if is_quote c then r else v
     | EmptyString => EmptyString
     end).

Fixpoint last_char_in (p : ascii -> bool) (s : string) : bool :=
  match s with
  | EmptyString => false
  | String c EmptyString => p c
  | String _ r => last_char_in p r
  end.

Definition first_char_in (p : ascii -> bool) (s : string) : bool :=
  match s with
  | String c _ => p c
  | EmptyString => false
  end.

(** The key announced by a trimmed qualifier line. *)
Definition key_of_line (line : string) : string :=
  if contains "=" line
  then match split1 "=" (slice (Some 1) None line) with
       | k :: _ => k
       | [] => EmptyString
       end
  else slice (Some 1) None line.

(** Auxiliary notions used by the statements below. *)


Definition not_newline (c : ascii) : bool := negb (is_newline c).

(** A non-empty string of characters of the class [p]. *)
Definition run_of (p : ascii -> bool) (s : string) : bool :=
  match s with
  | EmptyString => false
  | _ => all_chars p s
  end.


(** What [parse_location] does once the strand and the body are known. *)
Definition parse_body (strand body : string) : result (Z * Z * string) :=
  if startswith body "join(" then
    match re_search_range body with
    | Some (g1, g2) =>
        do start <- py_int g1;
        do end_ <- py_int g2;
        Ok (start, end_, strand)
    | None => Ok (1, 1, strand)
    end
  else if contains ".." body then
    try_except_ValueError
      (do parts <- unpack2 (split ".." body);
       do start <- py_int (re_sub_fuzzy (fst parts));
       do end_ <- py_int (re_sub_fuzzy (snd parts));
       Ok (start, end_, strand))
      (Ok (1, 1, strand))
  else
    try_except_ValueError
      (do pos <- py_int (re_sub_fuzzy body);
       Ok (pos, pos, strand))
      (Ok (1, 1, strand)).

(** A line inside the table yields a feature. *)
Definition yields_feature (line : string) : bool :=
  match scan_features ["FEATURES"; line] with
  | Some (_ :: _, _) => true
  | _ => false
  end.

(** A key announced by one of the lines. *)
Definition announced (lines : list string) (k : string) : Prop :=
  exists l, In l lines /\ startswith (strip l) "/" = true
            /\ key_of_line (strip l) = k.

Definition keys_announced (lines : list string) (st : extract_state) : Prop :=
  (forall k, is_Some (attributes_of st !! k) -> announced lines k)
  /\ (forall q, current_qualifier st = Some q -> announced lines q).

Definition example_record : string :=
  join NL ["LOCUS       AB123 500 bp";
           "FEATURES             Location/Qualifiers";
           "     gene            100..200";
           "                     /locus_tag=" +:+ DQUOTE +:+ "g1" +:+ DQUOTE;
           "     CDS             complement(300..150)";
           "                     /db_xref=" +:+ DQUOTE +:+ "GI:1" +:+ DQUOTE;
           "//"; ""].

(** Notions used by the further properties. *)

(** The value accumulated by a qualifier whose own line gave [v] and that
    is followed by the continuation lines [cs]. *)
Definition continuation_value (v : string) (cs : list string) : string :=
  fold_left (fun acc c => acc +:+ " " +:+ strip c) cs v.

(** A line that continues the pending qualifier. *)
Definition is_continuation (l : string) : bool := negb (startswith (strip l) "/").

(** The characters that the escaping replaces. *)
Definition is_reserved (c : ascii) : bool :=
  Ascii.eqb c ";" || Ascii.eqb c "=" || Ascii.eqb c "&".

Definition not_reserved (c : ascii) : bool := negb (is_reserved c).

Definition not_tab (c : ascii) : bool := negb (Ascii.eqb c (ascii_of_nat 9)).

Definition not_space (c : ascii) : bool := negb (is_space c).

(** What holds of every entry of an extracted map. *)
Definition well_stored (k v : string) : Prop :=
  k <> "" /\ contains "=" k = false
  /\ first_char_in is_quote v = false /\ last_char_in is_quote v = false.

Definition entries_well_stored (st : extract_state) : Prop :=
  (forall k v, attributes_of st !! k = Some v -> well_stored k v)
  /\ (forall q, current_qualifier st = Some q -> contains "=" q = false).


(** * Properties *)

(** ** Strings *)

Lemma app_cons_str (c : ascii) (s t : string) : String c s +:+ t = String c (s +:+ t).
Proof. reflexivity. Qed.

Lemma app_nil_l_str (s : string) : "" +:+ s = s.
Proof. reflexivity. Qed.

Lemma app_nil_r_str (s : string) : s +:+ "" = s.
Proof. induction s as [|c s IH]; [reflexivity|]. rewrite app_cons_str, IH. reflexivity. Qed.

Lemma app_assoc_str (s t u : string) : (s +:+ t) +:+ u = s +:+ (t +:+ u).
Proof.
  induction s as [|c s IH]; [reflexivity|].
  rewrite !app_cons_str, IH. reflexivity.
Qed.

Lemma length_app_str (s t : string) :
  String.length (s +:+ t) = (String.length s + String.length t)%nat.
Proof.
  induction s as [|c s IH]; [reflexivity|].
  rewrite app_cons_str. simpl. rewrite IH. reflexivity.
Qed.

Lemma all_chars_app (p : ascii -> bool) (s t : string) :
  all_chars p (s +:+ t) = all_chars p s && all_chars p t.
Proof.
  induction s as [|c s IH]; [reflexivity|].
  rewrite app_cons_str. simpl. rewrite IH, andb_assoc. reflexivity.
Qed.

Lemma startswith_app (s t : string) : startswith (s +:+ t) s = true.
Proof.
  induction s as [|c s IH]; [reflexivity|].
  rewrite app_cons_str. simpl. rewrite Ascii.eqb_refl, IH. reflexivity.
Qed.

Lemma startswith_inv (s p : string) :
  startswith s p = true -> exists t, s = p +:+ t.
Proof.
  revert s. induction p as [|a p IH]; intros s H.
  - exists s. reflexivity.
  - destruct s as [|b s]; [discriminate|]. simpl in H.
    apply andb_true_iff in H as [Hab Hs].
    apply Ascii.eqb_eq in Hab. subst b.
    destruct (IH _ Hs) as [t ->]. exists t. reflexivity.
Qed.

Lemma str_take_length (s t : string) : str_take (String.length s) (s +:+ t) = s.
Proof.
  induction s as [|c s IH]; [destruct t; reflexivity|].
  rewrite app_cons_str. simpl. rewrite IH. reflexivity.
Qed.

Lemma str_take_all (s : string) : str_take (String.length s) s = s.
Proof. rewrite <- (app_nil_r_str s) at 2. apply str_take_length. Qed.

Lemma str_drop_length (s t : string) : str_drop (String.length s) (s +:+ t) = t.
Proof. induction s as [|c s IH]; [destruct t; reflexivity|]. exact IH. Qed.

Lemma slice_tail (c : ascii) (r : string) : slice (Some 1) None (String c r) = r.
Proof.
  unfold slice, slice_index.
  change (1 <? 0) with false. cbv iota.
  change (Z.to_nat 1) with 1%nat.
  change (String.length (String c r)) with (S (String.length r)).
  change (Nat.min 1 (S (String.length r))) with 1%nat.
  change (str_drop 1 (String c r)) with r.
  replace (S (String.length r) - 1)%nat with (String.length r) by lia.
  apply str_take_all.
Qed.

(** ** [span], [strip] and [int] *)

Lemma span_all (p : ascii -> bool) (s : string) : all_chars p (fst (span p s)) = true.
Proof.
  induction s as [|c s IH]; [reflexivity|]. simpl.
  destruct (p c) eqn:Hc; [|reflexivity].
  destruct (span p s) as [a b]. simpl in *. rewrite Hc, IH. reflexivity.
Qed.

Lemma span_app (p : ascii -> bool) (s : string) :
  fst (span p s) +:+ snd (span p s) = s.
Proof.
  induction s as [|c s IH]; [reflexivity|]. simpl.
  destruct (p c); [|reflexivity].
  destruct (span p s) as [a b]. simpl in *. rewrite app_cons_str, IH. reflexivity.
Qed.

Lemma span_rest (p : ascii -> bool) (s : string) :
  first_char_in p (snd (span p s)) = false.
Proof.
  induction s as [|c s IH]; [reflexivity|]. simpl.
  destruct (p c) eqn:Hc.
  - destruct (span p s) as [a b]. exact IH.
  - simpl. exact Hc.
Qed.

(** A run of [p] followed by something that does not start in [p] is
    exactly what [span] cuts off. *)
Lemma span_exact (p : ascii -> bool) (a rest : string) :
  all_chars p a = true -> first_char_in p rest = false ->
  span p (a +:+ rest) = (a, rest).
Proof.
  intros Ha Hr. induction a as [|c a IH].
  - rewrite app_nil_l_str. destruct rest as [|d rest]; [reflexivity|].
    simpl in *. rewrite Hr. reflexivity.
  - simpl in Ha. apply andb_true_iff in Ha as [Hc Ha].
    rewrite app_cons_str. simpl. rewrite Hc, (IH Ha). reflexivity.
Qed.

Lemma lstrip_none (p : ascii -> bool) (s : string) :
  first_char_in p s = false -> lstrip p s = s.
Proof. destruct s as [|c s]; [reflexivity|]. simpl. intros ->. reflexivity. Qed.

Lemma rstrip_none (p : ascii -> bool) (s : string) :
  last_char_in p s = false -> rstrip p s = s.
Proof.
  induction s as [|c s IH]; [reflexivity|]. intros H.
  destruct s as [|d s].
  - simpl in *. rewrite H. reflexivity.
  - change (last_char_in p (String c (String d s))) with (last_char_in p (String d s)) in H.
    specialize (IH H).
    change (rstrip p (String c (String d s))) with
      (match rstrip p (String d s) with
       | EmptyString => if p c then EmptyString else String c EmptyString
       | r' => String c r'
       end).
    rewrite IH. reflexivity.
Qed.

Lemma all_not_first (p q : ascii -> bool) (s : string) :
  (forall c, p c = true -> q c = false) ->
  all_chars p s = true -> first_char_in q s = false.
Proof.
  intros Hpq. destruct s as [|c s]; [reflexivity|]. simpl.
  intros H. apply andb_true_iff in H as [Hc _]. auto.
Qed.

Lemma all_not_last (p q : ascii -> bool) (s : string) :
  (forall c, p c = true -> q c = false) ->
  all_chars p s = true -> last_char_in q s = false.
Proof.
  intros Hpq. induction s as [|c s IH]; [reflexivity|]. simpl.
  intros H. apply andb_true_iff in H as [Hc Hs].
  destruct s as [|d s]; auto.
Qed.

Lemma decimal_not_int_space (c : ascii) :
  is_decimal c = true -> is_int_space c = false.
Proof. destruct c as [[] [] [] [] [] [] [] []]; vm_compute; congruence. Qed.

Lemma strip_number (s : string) :
  all_chars is_decimal s = true -> strip_chars is_int_space s = s.
Proof.
  intros H. unfold strip_chars.
  rewrite (lstrip_none is_int_space s).
  - apply rstrip_none.
    apply (all_not_last is_decimal); [exact decimal_not_int_space | exact H].
  - apply (all_not_first is_decimal); [exact decimal_not_int_space | exact H].
Qed.

Lemma int_digits_go_decimal (s : string) (acc : Z) :
  all_chars is_decimal s = true ->
  int_digits_go acc false s = Some (decimal_from acc s).
Proof.
  revert acc. induction s as [|c s IH]; intros acc H; [reflexivity|].
  simpl in H. apply andb_true_iff in H as [Hc Hs].
  simpl. rewrite Hc. apply IH, Hs.
Qed.

Lemma py_int_number (s : string) :
  is_number s = true -> py_int s = Ok (decimal_value s).
Proof.
  destruct s as [|c r]; [discriminate|]. unfold is_number. intros H.
  unfold py_int. rewrite (strip_number _ H).
  simpl in H. apply andb_true_iff in H as [Hc Hr].
  assert (Hd : int_digits (String c r) = Some (decimal_value (String c r))).
  { unfold int_digits. rewrite Hc. rewrite (int_digits_go_decimal r _ Hr).
    reflexivity. }
  destruct c as [[] [] [] [] [] [] [] []]; try discriminate Hc;
    rewrite Hd; reflexivity.
Qed.

Lemma py_int_raises (s : string) (e : exn) : py_int s = Raise e -> e = ValueError.
Proof.
  unfold py_int.
  destruct (match strip_chars is_int_space s with
            | String "-" r => (true, r)
            | String "+" r => (false, r)
            | _ => (false, strip_chars is_int_space s)
            end) as [negative body].
  destruct (int_digits body); congruence.
Qed.

(** ** The range pattern *)

Lemma starts_with_decimal_first (s : string) :
  starts_with_decimal s = first_char_in is_decimal s.
Proof. destruct s; reflexivity. Qed.

Lemma is_number_all (s : string) : is_number s = true -> all_chars is_decimal s = true.
Proof. destruct s; [discriminate | exact (fun H => H)]. Qed.

Lemma is_number_intro (c : ascii) (s : string) :
  all_chars is_decimal (String c s) = true -> is_number (String c s) = true.
Proof. exact (fun H => H). Qed.

Lemma range_match_here_inv (s a b : string) :
  range_match_here s = Some (a, b) ->
  exists rest, range_occurs s "" a b rest /\ starts_with_decimal rest = false.
Proof.
  unfold range_match_here.
  pose proof (span_all is_decimal s) as Ha.
  pose proof (span_app is_decimal s) as Hs.
  destruct (span is_decimal s) as [d1 r1]. simpl in Ha, Hs.
  destruct d1 as [|c1 d1]; [discriminate|].
  destruct r1 as [|x r1]; [discriminate|].
  destruct (Ascii.eqb_spec x ".") as [->|Hx].
  2:{ destruct x as [[] [] [] [] [] [] [] []]; try discriminate; congruence. }
  destruct r1 as [|y r2]; [discriminate|].
  destruct (Ascii.eqb_spec y ".") as [->|Hy].
  2:{ destruct y as [[] [] [] [] [] [] [] []]; try discriminate; congruence. }
  pose proof (span_all is_decimal r2) as Hb.
  pose proof (span_app is_decimal r2) as Hr.
  pose proof (span_rest is_decimal r2) as Hn.
  destruct (span is_decimal r2) as [d2 rest]. simpl in Hb, Hr, Hn.
  destruct d2 as [|c2 d2]; [discriminate|].
  intros H. injection H as <- <-.
  exists rest. split; [|rewrite starts_with_decimal_first; exact Hn].
  split; [|split; assumption].
  rewrite app_nil_l_str, <- Hs, <- Hr. reflexivity.
Qed.


Lemma re_search_range_unfold (s : string) :
  re_search_range s =
  match range_match_here s with
  | Some g => Some g
  | None => match s with
            | EmptyString => None
            | String _ r => re_search_range r
            end
  end.
Proof. destruct s; reflexivity. Qed.

Lemma range_occurs_cons (c : ascii) (s pre a b rest : string) :
  range_occurs s pre a b rest -> range_occurs (String c s) (String c pre) a b rest.
Proof. intros (-> & Ha & Hb). split; [reflexivity | split; assumption]. Qed.

Lemma re_search_range_inv (s a b : string) :
  re_search_range s = Some (a, b) ->
  exists pre rest, range_occurs s pre a b rest.
Proof.
  induction s as [|c s IH]; rewrite re_search_range_unfold.
  - destruct (range_match_here "") as [[x y]|] eqn:E; [|discriminate].
    intros H. injection H as -> ->.
    destruct (range_match_here_inv _ _ _ E) as (rest & Ho & _).
    exists "", rest. exact Ho.
  - destruct (range_match_here (String c s)) as [[x y]|] eqn:E.
    + intros H. injection H as -> ->.
      destruct (range_match_here_inv _ _ _ E) as (rest & Ho & _).
      exists "", rest. exact Ho.
    + intros H. destruct (IH H) as (pre & rest & Ho).
      exists (String c pre), rest. apply range_occurs_cons, Ho.
Qed.

Lemma re_search_range_numbers (s a b : string) :
  re_search_range s = Some (a, b) -> is_number a = true /\ is_number b = true.
Proof.
  intros H. destruct (re_search_range_inv _ _ _ H) as (pre & rest & _ & Ha & Hb).
  split; assumption.
Qed.

Lemma re_search_range_none (s : string) : no_range s -> re_search_range s = None.
Proof.
  intros Hno. destruct (re_search_range s) as [[a b]|] eqn:E; [|reflexivity].
  destruct (re_search_range_inv _ _ _ E) as (pre & rest & Ho).
  destruct (Hno _ _ _ _ Ho).
Qed.


(** ** C1 *)

(** [parse_location] returns on every string. *)
Lemma parse_location_returns (location_str : string) :
  exists a b : Z,
    parse_location location_str = Ok (a, b, strand_of location_str)
    /\ (strand_of location_str = "+" \/ strand_of location_str = "-")
    /\ (parsable (location_body location_str) = false -> a = 1 /\ b = 1).
Proof.
  unfold parse_location, parsable, location_body, strand_of.
  set (body := if startswith location_str "complement("
               then slice (Some 11) (Some (-1)) location_str else location_str).
  set (strand := if startswith location_str "complement(" then "-" else "+").
  assert (Hstrand : strand = "+" \/ strand = "-").
  { subst strand. destruct (startswith location_str "complement("); auto. }
  destruct (startswith body "join(").
  - destruct (re_search_range body) as [[g1 g2]|] eqn:E.
    + destruct (re_search_range_numbers _ _ _ E) as [H1 H2].
      rewrite (py_int_number _ H1), (py_int_number _ H2). simpl.
      eexists _, _. split; [reflexivity|]. split; [exact Hstrand | discriminate].
    + exists 1, 1. auto.
  - destruct (contains ".." body).
    + destruct (split ".." body) as [|x [|y [|z l]]]; simpl;
        try solve [exists 1, 1; auto].
      destruct (py_int (re_sub_fuzzy x)) as [vx|e1] eqn:Ex; simpl.
      2:{ rewrite (py_int_raises _ _ Ex). exists 1, 1. auto. }
      destruct (py_int (re_sub_fuzzy y)) as [vy|e2] eqn:Ey; simpl.
      2:{ rewrite (py_int_raises _ _ Ey). exists 1, 1. auto. }
      exists vx, vy. split; [reflexivity|]. split; [exact Hstrand | discriminate].
    + destruct (py_int (re_sub_fuzzy body)) as [v|e] eqn:Ev; simpl.
      2:{ rewrite (py_int_raises _ _ Ev). exists 1, 1. auto. }
      exists v, v. split; [reflexivity|]. split; [exact Hstrand | discriminate].
Qed.




(** ** Splitting and searching *)

Lemma split_skip_drop (sep : string) (k : nat) (s : string) :
  split_skip sep k s = split_skip sep 0 (str_drop k s).
Proof.
  revert k. induction s as [|c s IH]; intros [|k]; try reflexivity.
  simpl. apply IH.
Qed.

(** The two equations of [split] for a separator [String a sep]. *)
Lemma split_here (a : ascii) (sep s : string) :
  split (String a sep) (String a sep +:+ s) = "" :: split (String a sep) s.
Proof.
  unfold split. rewrite app_cons_str. simpl.
  rewrite Ascii.eqb_refl, startswith_app. simpl.
  rewrite Nat.sub_0_r, split_skip_drop, str_drop_length. reflexivity.
Qed.

Lemma split_next (sep : string) (c : ascii) (s : string) :
  startswith (String c s) sep = false ->
  split sep (String c s) =
  match split sep s with
  | h :: t => String c h :: t
  | [] => [String c ""]
  end.
Proof. unfold split. simpl. intros ->. reflexivity. Qed.

Lemma split_nil (sep : string) : split sep "" = [""].
Proof. reflexivity. Qed.

Lemma startswith_cons (b a : ascii) (s p : string) :
  startswith (String b s) (String a p) = Ascii.eqb a b && startswith s p.
Proof. reflexivity. Qed.




Lemma contains_unfold (sub s : string) :
  contains sub s =
  startswith s sub || match s with EmptyString => false | String _ r => contains sub r end.
Proof. destruct s; reflexivity. Qed.


Lemma contains_app (sub x y : string) : contains sub (x +:+ sub +:+ y) = true.
Proof.
  induction x as [|c x IH].
  - rewrite app_nil_l_str, contains_unfold, startswith_app. reflexivity.
  - rewrite app_cons_str, contains_unfold, IH. apply orb_true_r.
Qed.

Lemma all_chars_impl (p q : ascii -> bool) (s : string) :
  (forall c, p c = true -> q c = true) -> all_chars p s = true -> all_chars q s = true.
Proof.
  intros Hpq. induction s as [|c s IH]; [reflexivity|]. simpl.
  intros H. apply andb_true_iff in H as [Hc Hs]. rewrite (Hpq _ Hc), (IH Hs).
  reflexivity.
Qed.







(** ** C2 *)

Lemma parse_location_body (s : string) :
  parse_location s = parse_body (strand_of s) (location_body s).
Proof. reflexivity. Qed.


Lemma slice_unwrap (e : string) :
  slice (Some 11) (Some (-1)) ("complement(" +:+ e +:+ ")") = e.
Proof.
  unfold slice, slice_index.
  change (11 <? 0) with false. change (-1 <? 0) with true. cbv iota.
  rewrite !length_app_str.
  change (String.length "complement(") with 11%nat.
  change (String.length ")") with 1%nat.
  change (Z.to_nat 11) with 11%nat.
  replace (Nat.min 11 (11 + (String.length e + 1))) with 11%nat by lia.
  replace (Z.to_nat (0 `max` (-1 + Z.of_nat (11 + (String.length e + 1)))) - 11)%nat
    with (String.length e) by lia.
  change 11%nat with (String.length "complement(") at 1.
  rewrite str_drop_length. apply str_take_length.
Qed.









(** ** The feature loop *)

Lemma space_not_word (c : ascii) : is_space c = true -> is_word c = false.
Proof. destruct c as [[] [] [] [] [] [] [] []]; vm_compute; congruence. Qed.

Lemma space_not_keyword_start (c : ascii) (s : string) :
  is_space c = true ->
  startswith (String c s) "FEATURES" = false
  /\ startswith (String c s) "ORIGIN" = false
  /\ startswith (String c s) "//" = false.
Proof.
  destruct c as [[] [] [] [] [] [] [] []]; vm_compute; try congruence; auto.
Qed.

Lemma rstrip_empty (p : ascii -> bool) (s : string) :
  rstrip p s = "" -> all_chars p s = true.
Proof.
  induction s as [|c s IH]; [reflexivity|]. simpl.
  destruct (rstrip p s); [|discriminate].
  destruct (p c); [|discriminate]. intros _. apply IH. reflexivity.
Qed.

Lemma lstrip_first (p : ascii -> bool) (s : string) :
  first_char_in p (lstrip p s) = false.
Proof.
  induction s as [|c s IH]; [reflexivity|]. simpl.
  destruct (p c) eqn:Hc; [exact IH|]. simpl. exact Hc.
Qed.

Lemma lstrip_empty (p : ascii -> bool) (s : string) :
  lstrip p s = "" -> all_chars p s = true.
Proof.
  induction s as [|c s IH]; [reflexivity|]. simpl.
  destruct (p c); [exact IH | discriminate].
Qed.

Lemma strip_chars_empty (p : ascii -> bool) (s : string) :
  strip_chars p s = "" -> all_chars p s = true.
Proof.
  unfold strip_chars. intros H. apply lstrip_empty.
  pose proof (lstrip_first p s) as Hf. apply rstrip_empty in H.
  destruct (lstrip p s) as [|c r]; [reflexivity|].
  simpl in *. rewrite Hf in H. discriminate.
Qed.

Lemma all_chars_strip_empty (p : ascii -> bool) (s : string) :
  all_chars p s = true -> strip_chars p s = "".
Proof.
  unfold strip_chars. induction s as [|c s IH]; [reflexivity|]. simpl.
  intros H. apply andb_true_iff in H as [-> Hs]. apply IH, Hs.
Qed.

Lemma slice_prefix (k : nat) (s : string) :
  (k <= String.length s)%nat -> slice None (Some (Z.of_nat k)) s = str_take k s.
Proof.
  intros H. unfold slice, slice_index.
  destruct (Z.ltb_spec (Z.of_nat k) 0) as [Hk|Hk]; [lia|].
  rewrite Nat2Z.id, Nat.min_l, Nat.sub_0_r by exact H. reflexivity.
Qed.

(** A qualifier line has at least six characters, and the first and the
    sixth are white space. *)
Lemma qualifier_line_shape (l : string) :
  is_qualifier_line l = true ->
  exists c0 c1 c2 c3 c4 c5 rest,
    l = String c0 (String c1 (String c2 (String c3 (String c4 (String c5 rest)))))
    /\ is_space c0 = true /\ is_space c5 = true.
Proof.
  unfold is_qualifier_line. intros H. apply orb_true_iff in H as [H|H].
  - apply startswith_inv in H as [t ->].
    eexists _, _, _, _, _, _, _. split; [reflexivity|]. split; reflexivity.
  - apply andb_true_iff in H as [Hlen Hblank].
    apply Nat.ltb_lt in Hlen. apply String.eqb_eq in Hblank.
    change (Some 21) with (Some (Z.of_nat 21)) in Hblank.
    rewrite slice_prefix in Hblank by lia.
    apply strip_chars_empty in Hblank.
    destruct l as [|c0 [|c1 [|c2 [|c3 [|c4 [|c5 rest]]]]]]; simpl in Hlen; try lia.
    simpl in Hblank.
    repeat (apply andb_true_iff in Hblank as [? Hblank]).
    eexists _, _, _, _, _, _, _. split; [reflexivity|]. split; assumption.
Qed.

Lemma word_then_rest_first (s : string) (g : string * string) :
  word_then_rest s = Some g -> first_char_in is_word s = true.
Proof.
  destruct s as [|c r]; [discriminate|]. simpl.
  destruct (is_word c); [reflexivity | discriminate].
Qed.

Lemma feature_match_shape (line : string) (g : string * string) :
  feature_match line = Some g ->
  exists c r, line = "     " +:+ String c r /\ is_word c = true.
Proof.
  unfold feature_match.
  destruct (startswith line "     ") eqn:Hs; [|discriminate].
  apply startswith_inv in Hs as [t ->].
  change 5%nat with (String.length "     "). rewrite str_drop_length.
  intros H. apply word_then_rest_first in H.
  destruct t as [|c r]; [discriminate|]. exists c, r. split; [reflexivity | exact H].
Qed.

Lemma qualifier_line_inert (l : string) :
  is_qualifier_line l = true ->
  startswith l "FEATURES" = false /\ is_stop_line l = false
  /\ feature_match l = None.
Proof.
  intros H.
  destruct (qualifier_line_shape _ H) as (c0 & c1 & c2 & c3 & c4 & c5 & rest & -> & H0 & H5).
  destruct (space_not_keyword_start c0
              (String c1 (String c2 (String c3 (String c4 (String c5 rest))))) H0)
    as (Hf & Ho & Hs).
  split; [exact Hf|]. split.
  - unfold is_stop_line. rewrite Ho, Hs. reflexivity.
  - destruct (feature_match _) as [g|] eqn:E; [|reflexivity].
    destruct (feature_match_shape _ _ E) as (c & r & Heq & Hw).
    injection Heq as -> -> -> -> -> -> ->.
    rewrite (space_not_word _ H5) in Hw. discriminate.
Qed.

Lemma word_not_blank (c : ascii) : is_word c = true -> Ascii.eqb c " " = false.
Proof. destruct c as [[] [] [] [] [] [] [] []]; vm_compute; congruence. Qed.

Lemma feature_match_candidate (line : string) (g : string * string) :
  feature_match line = Some g -> header_candidate line = true.
Proof.
  intros H. destruct (feature_match_shape _ _ H) as (c & r & -> & Hw).
  unfold header_candidate. simpl. rewrite (word_not_blank _ Hw). reflexivity.
Qed.

Lemma feature_match_claimed (line : string) (g : string * string) :
  feature_match line = Some g -> claimed_header line = true.
Proof.
  intros H. unfold claimed_header. rewrite (feature_match_candidate _ _ H).
  destruct (feature_match_shape _ _ H) as (c & r & -> & Hw).
  change (Some 5) with (Some (Z.of_nat 5)).
  rewrite slice_prefix by (rewrite length_app_str; simpl; lia).
  reflexivity.
Qed.

Lemma drop_take_while {A : Type} (p : A -> bool) (l : list A) :
  drop (length (take_while p l)) l = drop_while p l.
Proof.
  induction l as [|x l IH]; [reflexivity|]. simpl.
  destruct (p x); [exact IH | reflexivity].
Qed.

(** The inner loop gathers the qualifier lines that follow and stops on the
    first line that is not one, leaving [i] on it. *)
Lemma collect_loop_spec (fuel : nat) (lines : list string) (i : nat)
  (acc : list string) :
  (length lines - i < fuel)%nat ->
  collect_loop fuel lines i acc
  = Some (acc ++ take_while is_qualifier_line (drop i lines),
          (i + length (take_while is_qualifier_line (drop i lines)))%nat).
Proof.
  revert i acc. induction fuel as [|fuel IH]; intros i acc Hfuel; [lia|].
  simpl. destruct (lines !! i) as [l|] eqn:El.
  - pose proof (lookup_lt_Some _ _ _ El) as Hlt.
    rewrite (drop_S _ _ _ El). simpl.
    destruct (is_qualifier_line l).
    + rewrite IH by lia. simpl. rewrite <- app_assoc. simpl.
      repeat f_equal. lia.
    + rewrite app_nil_r. simpl. repeat f_equal. lia.
  - apply lookup_ge_None_1 in El. rewrite drop_ge by exact El.
    simpl. rewrite app_nil_r. repeat f_equal. lia.
Qed.

Lemma scan_spec_qualifier (in_features : bool) (l : string) (rest : list string) :
  is_qualifier_line l = true ->
  scan_spec in_features (l :: rest) = scan_spec in_features rest.
Proof.
  intros H. destruct (qualifier_line_inert _ H) as (Hf & Hs & Hm).
  cbn [scan_spec]. rewrite Hf, Hs, Hm. destruct in_features; reflexivity.
Qed.

Lemma scan_spec_drop_while (in_features : bool) (rest : list string) :
  scan_spec in_features (drop_while is_qualifier_line rest)
  = scan_spec in_features rest.
Proof.
  induction rest as [|l rest IH]; [reflexivity|]. simpl drop_while.
  destruct (is_qualifier_line l) eqn:Hq; [|reflexivity].
  rewrite IH, scan_spec_qualifier by exact Hq. reflexivity.
Qed.

Section FeatureLoopSpec.
Context {A : Type}.
Variable emit : string -> string -> list string -> result A.

(** With one unit of fuel per remaining line and one to spare, the loop
    ends and yields what the line-by-line scanner yields. *)
Lemma feature_loop_spec (fuel : nat) (lines : list string) (i : nat)
  (in_features : bool) :
  (length lines - i < fuel)%nat ->
  feature_loop emit fuel lines i in_features
  = Some (run_features emit (scan_spec in_features (drop i lines))).
Proof.
    revert i in_features.
    induction fuel as [|fuel IH]; intros i in_features Hfuel; [lia|].
    cbn [feature_loop]. destruct (lines !! i) as [line|] eqn:El.
    2:{ apply lookup_ge_None_1 in El. rewrite drop_ge by exact El. reflexivity. }
    pose proof (lookup_lt_Some _ _ _ El) as Hlt.
    rewrite (drop_S _ _ _ El). cbn [scan_spec].
    replace (i + 1)%nat with (S i) by lia.
    destruct (startswith line "FEATURES"); [apply IH; lia|].
    destruct (is_stop_line line); [reflexivity|].
    destruct in_features; cbn [andb].
    2:{ apply IH. lia. }
    destruct (feature_match line) as [[ty loc]|] eqn:Em.
    - rewrite (feature_match_candidate _ _ Em).
      rewrite collect_loop_spec by lia. cbn [app].
      set (qs := take_while is_qualifier_line (drop (S i) lines)).
      replace (S i + length qs - 1 + 1)%nat with (S i + length qs)%nat by lia.
      cbn [run_features].
      destruct (emit ty loc qs) as [a|e]; [|reflexivity].
      rewrite IH by lia.
      rewrite <- drop_drop. unfold qs. rewrite drop_take_while.
      rewrite scan_spec_drop_while.
      destruct (run_features emit (scan_spec true (drop (S i) lines))) as [l e].
      reflexivity.
    - destruct (header_candidate line); apply IH; lia.
Qed.

Lemma scan_record_spec (lines : list string) :
  scan_record emit lines = Some (run_features emit (scan_spec false lines)).
Proof. unfold scan_record. rewrite feature_loop_spec by lia. reflexivity. Qed.
End FeatureLoopSpec.

Lemma run_features_id (fs : list feature) :
  run_features (fun ty loc qs => Ok (ty, loc, qs)) fs = (fs, None).
Proof.
  induction fs as [|[[ty loc] qs] fs IH]; [reflexivity|].
  simpl. rewrite IH. reflexivity.
Qed.

Lemma take_while_stop {A : Type} (p : A -> bool) (pre : list A) (x : A) (post : list A) :
  p x = false -> take_while p (pre ++ x :: post) = take_while p pre.
Proof.
  intros Hx. induction pre as [|y pre IH]; simpl.
  - rewrite Hx. reflexivity.
  - destruct (p y); [rewrite IH|]; reflexivity.
Qed.

Lemma stop_not_qualifier (l : string) :
  is_stop_line l = true -> is_qualifier_line l = false.
Proof.
  intros Hs. destruct (is_qualifier_line l) eqn:Hq; [|reflexivity].
  destruct (qualifier_line_inert _ Hq) as (_ & H & _). congruence.
Qed.

Lemma stop_not_features (l : string) :
  is_stop_line l = true -> startswith l "FEATURES" = false.
Proof.
  unfold is_stop_line. destruct l as [|c l]; [discriminate|].
  destruct c as [[] [] [] [] [] [] [] []]; simpl; intros H;
    try discriminate H; reflexivity.
Qed.

Lemma scan_spec_stop (in_features : bool) (pre : list string) (l : string)
  (post : list string) :
  is_stop_line l = true ->
  scan_spec in_features (pre ++ l :: post) = scan_spec in_features pre.
Proof.
  intros Hs. pose proof (stop_not_features _ Hs) as Hf. revert in_features.
  induction pre as [|x pre IH]; intros in_features.
  - cbn [app scan_spec]. rewrite Hf, Hs. reflexivity.
  - cbn [app scan_spec].
    rewrite !IH, (take_while_stop _ _ _ _ (stop_not_qualifier _ Hs)).
    reflexivity.
Qed.

(** *** What the header pattern matches *)

Lemma run_of_all (p : ascii -> bool) (s : string) :
  run_of p s = true -> all_chars p s = true /\ s <> "".
Proof. destruct s; [discriminate|]. intros H. split; [exact H | discriminate]. Qed.

Lemma run_of_cons (p : ascii -> bool) (c : ascii) (s : string) :
  p c = true -> all_chars p s = true -> run_of p (String c s) = true.
Proof. intros Hc Hs. simpl. rewrite Hc, Hs. reflexivity. Qed.

Lemma dot_plus_inv (s g : string) :
  dot_plus s = Some g -> exists tail, s = g +:+ tail /\ run_of not_newline g = true.
Proof.
  unfold dot_plus.
  pose proof (span_all (fun c => negb (is_newline c)) s) as Ha.
  pose proof (span_app (fun c => negb (is_newline c)) s) as Hs.
  destruct (span (fun c => negb (is_newline c)) s) as [a b]. simpl in *.
  destruct a as [|c a]; [discriminate|]. intros H. injection H as <-.
  exists b. split; [symmetry; exact Hs | exact Ha].
Qed.

Lemma dot_plus_line (s : string) :
  run_of not_newline s = true -> dot_plus s = Some s.
Proof.
  intros H. apply run_of_all in H as [Ha Hne]. unfold dot_plus.
  pose proof (span_exact (fun c => negb (is_newline c)) s "" Ha eq_refl) as Hs.
  rewrite app_nil_r_str in Hs. rewrite Hs. destruct s; [congruence | reflexivity].
Qed.

Lemma spaces_then_rest_inv (s g : string) :
  spaces_then_rest s = Some g ->
  exists ws tail, s = ws +:+ g +:+ tail
                  /\ run_of is_space ws = true /\ run_of not_newline g = true.
Proof.
  induction s as [|c s IH]; [discriminate|]. cbn [spaces_then_rest].
  destruct (is_space c) eqn:Hc; [|discriminate].
  destruct (spaces_then_rest s) as [g'|] eqn:E.
  - intros H. injection H as ->.
    destruct (IH eq_refl) as (ws & tail & -> & Hws & Hg).
    exists (String c ws), tail. split; [reflexivity|]. split; [|exact Hg].
    apply run_of_cons; [exact Hc | apply run_of_all, Hws].
  - intros H. destruct (dot_plus_inv _ _ H) as (tail & -> & Hg).
    exists (String c ""), tail. split; [reflexivity|]. split; [|exact Hg].
    simpl. rewrite Hc. reflexivity.
Qed.

Lemma word_then_rest_inv (s w g : string) :
  word_then_rest s = Some (w, g) ->
  exists ws tail, s = w +:+ ws +:+ g +:+ tail
                  /\ run_of is_word w = true /\ run_of is_space ws = true
                  /\ run_of not_newline g = true.
Proof.
  revert w. induction s as [|c s IH]; intros w; [discriminate|].
  cbn [word_then_rest]. destruct (is_word c) eqn:Hc; [|discriminate].
  destruct (word_then_rest s) as [[w' g']|] eqn:E.
  - intros H. injection H as <- ->.
    destruct (IH _ eq_refl) as (ws & tail & -> & Hw & Hws & Hg).
    exists ws, tail. split; [reflexivity|]. split; [|split; assumption].
    apply run_of_cons; [exact Hc | apply run_of_all, Hw].
  - destruct (spaces_then_rest s) as [g'|] eqn:E'; [|discriminate].
    intros H. injection H as <- ->.
    destruct (spaces_then_rest_inv _ _ E') as (ws & tail & -> & Hws & Hg).
    exists ws, tail. split; [reflexivity|]. split; [|split; assumption].
    simpl. rewrite Hc. reflexivity.
Qed.

Lemma spaces_then_rest_none (s : string) :
  first_char_in is_space s = false -> spaces_then_rest s = None.
Proof. destruct s as [|c s]; [reflexivity|]. simpl. intros ->. reflexivity. Qed.

Lemma word_then_rest_none (s : string) :
  first_char_in is_word s = false -> word_then_rest s = None.
Proof. destruct s as [|c s]; [reflexivity|]. simpl. intros ->. reflexivity. Qed.

Lemma spaces_then_rest_line (ws loc : string) :
  run_of is_space ws = true -> run_of not_newline loc = true ->
  first_char_in is_space loc = false ->
  spaces_then_rest (ws +:+ loc) = Some loc.
Proof.
  intros Hws Hloc Hfirst. apply run_of_all in Hws as [Hws Hne].
  induction ws as [|c ws IH]; [congruence|].
  simpl in Hws. apply andb_true_iff in Hws as [Hc Hws].
  rewrite app_cons_str. cbn [spaces_then_rest]. rewrite Hc.
  destruct ws as [|d ws].
  - rewrite app_nil_l_str, (spaces_then_rest_none _ Hfirst). apply dot_plus_line, Hloc.
  - rewrite IH; [reflexivity | exact Hws | discriminate].
Qed.

Lemma word_then_rest_line (w ws loc : string) :
  run_of is_word w = true -> run_of is_space ws = true ->
  run_of not_newline loc = true -> first_char_in is_space loc = false ->
  word_then_rest (w +:+ ws +:+ loc) = Some (w, loc).
Proof.
  intros Hw Hws Hloc Hfirst. apply run_of_all in Hw as [Hw Hne].
  assert (Hrest : first_char_in is_word (ws +:+ loc) = false).
  { apply run_of_all in Hws as [Ha Hn]. destruct ws as [|d ws]; [congruence|].
    simpl in Ha. apply andb_true_iff in Ha as [Hd _].
    rewrite app_cons_str. simpl. apply space_not_word, Hd. }
  induction w as [|c w IH]; [congruence|].
  simpl in Hw. apply andb_true_iff in Hw as [Hc Hw].
  rewrite app_cons_str. cbn [word_then_rest]. rewrite Hc.
  destruct w as [|d w].
  - rewrite app_nil_l_str, (word_then_rest_none _ Hrest).
    rewrite (spaces_then_rest_line _ _ Hws Hloc Hfirst). reflexivity.
  - rewrite IH; [reflexivity | exact Hw | discriminate].
Qed.

(** A matched line is five spaces, a word, white space and a location. *)
Lemma feature_match_inv (line ty loc : string) :
  feature_match line = Some (ty, loc) ->
  exists ws tail,
    line = "     " +:+ ty +:+ ws +:+ loc +:+ tail
    /\ run_of is_word ty = true /\ run_of is_space ws = true
    /\ run_of not_newline loc = true.
Proof.
  unfold feature_match.
  destruct (startswith line "     ") eqn:Hs; [|discriminate].
  apply startswith_inv in Hs as [t ->].
  change 5%nat with (String.length "     "). rewrite str_drop_length.
  intros H. destruct (word_then_rest_inv _ _ _ H) as (ws & tail & -> & Hrest).
  exists ws, tail. split; [reflexivity | exact Hrest].
Qed.

(** Five spaces, a word, white space and a location that does not start
    with white space: the line is matched, with that word and location. *)
Lemma feature_match_line (ty ws loc : string) :
  run_of is_word ty = true -> run_of is_space ws = true ->
  run_of not_newline loc = true -> first_char_in is_space loc = false ->
  feature_match ("     " +:+ ty +:+ ws +:+ loc) = Some (ty, loc).
Proof.
  intros Hty Hws Hloc Hfirst. unfold feature_match.
  rewrite startswith_app. change 5%nat with (String.length "     ").
  rewrite str_drop_length. apply word_then_rest_line; assumption.
Qed.

(** ** The scan of the feature table *)

(** The loop ends on every record and yields the features of the
    line-by-line scanner [scan_spec]: inside the table a line gives a
    feature when the pattern of five spaces, a word, white space and a
    location matches it, its qualifier lines are
    the lines that follow it immediately and start with 21 spaces or have
    21 blank leading characters, and the first line that is not one is
    examined next.  A matched line is five spaces, a word, white space and
    a location without a newline, and every line of that shape whose
    location does not start with white space is matched.  Every such header
    has five blank leading characters and a sixth character that is not a
    space.  Nothing after the first line that starts with [ORIGIN] or [//]
    yields a feature. *)
Theorem scan_features_spec :
  (forall lines : list string,
      scan_features lines = Some (scan_spec false lines, None))
  /\ (forall line ty loc : string,
         feature_match line = Some (ty, loc) ->
         exists ws tail,
           line = "     " +:+ ty +:+ ws +:+ loc +:+ tail
           /\ run_of is_word ty = true /\ run_of is_space ws = true
           /\ run_of not_newline loc = true)
  /\ (forall ty ws loc : string,
         run_of is_word ty = true -> run_of is_space ws = true ->
         run_of not_newline loc = true -> first_char_in is_space loc = false ->
         feature_match ("     " +:+ ty +:+ ws +:+ loc) = Some (ty, loc))
  /\ (forall (line : string) (g : string * string),
         feature_match line = Some g -> claimed_header line = true)
  /\ (forall (in_features : bool) (pre : list string) (l : string)
             (post : list string),
         is_stop_line l = true ->
         scan_spec in_features (pre ++ l :: post) = scan_spec in_features pre).
Proof.
  split; [|split; [exact feature_match_inv|split; [exact feature_match_line|]]].
  - intros lines. unfold scan_features.
    rewrite scan_record_spec, run_features_id. reflexivity.
  - split; [exact feature_match_claimed | exact scan_spec_stop].
Qed.

Lemma scan_features_spec_witness :
  feature_match "     CDS             complement(300..150)"
  = Some ("CDS", "complement(300..150)")
  /\ claimed_header "     CDS             complement(300..150)" = true
  /\ scan_spec true ["     gene            1..9"; "ORIGIN"; "     gene            5..7"]
     = scan_spec true ["     gene            1..9"]
  /\ exists ws tail,
       "     gene            1..9" = "     " +:+ "gene" +:+ ws +:+ "1..9" +:+ tail.
Proof.
  destruct scan_features_spec as (_ & Hinv & Hline & Hheader & Hstop).
  split; [|split; [|split]].
  - exact (Hline "CDS" "             " "complement(300..150)"
             eq_refl eq_refl eq_refl eq_refl).
  - apply (Hheader _ ("CDS", "complement(300..150)")). reflexivity.
  - apply (Hstop true ["     gene            1..9"] "ORIGIN"); reflexivity.
  - destruct (Hinv "     gene            1..9" "gene" "1..9" eq_refl)
      as (ws & tail & Heq & _).
    exists ws, tail. exact Heq.
Defined.

(** The header test accepts lines that the pattern rejects: the key
    [3'UTR] is not a word followed by white space, so the line yields no
    feature. *)
Lemma header_claim_counterexample :
  ~ (forall line : string,
        startswith line "FEATURES" = false -> is_stop_line line = false ->
        (yields_feature line = true <-> claimed_header line = true)).
Proof.
  intros H.
  destruct (H "     3'UTR           1..5" eq_refl eq_refl) as [_ Hc].
  specialize (Hc eq_refl). vm_compute in Hc. discriminate Hc.
Qed.

(** ** C3 *)

(** C3.  The code at the failing input.  Inside the table the line with
    the key [3'UTR] has five blank leading characters and a sixth character
    that is not a space, and it passes the test by which the loop takes a
    line for a new feature; the pattern applied next does not match it,
    because the word of the pattern ends at the apostrophe, and the loop
    goes on without a feature: the line and its qualifier line are lost,
    and only the features before and after it come out.  The same holds
    for the key [-10_signal].  A line with the key [gene] is matched. *)
Theorem quoted_key_header_lost :
  claimed_header "     3'UTR           5..9" = true
  /\ header_candidate "     3'UTR           5..9" = true
  /\ feature_match "     3'UTR           5..9" = None
  /\ scan_features
       ["FEATURES             Location/Qualifiers";
        "     gene            1..9";
        "     3'UTR           5..9";
        "                     /note=x";
        "     CDS             2..4"]
     = Some ([("gene", "1..9", []); ("CDS", "2..4", [])], None)
  /\ header_candidate "     -10_signal      5..9" = true
  /\ feature_match "     -10_signal      5..9" = None
  /\ feature_match "     gene            1..9" = Some ("gene", "1..9").
Proof. repeat split; vm_compute; reflexivity. Qed.

(** ** C4 *)

Lemma replace_cons (a c : ascii) (new r : string) :
  replace (String a "") new (String c r)
  = (if Ascii.eqb a c then new else String c "") +:+ replace (String a "") new r.
Proof.
  unfold replace. cbn [replace_skip]. rewrite startswith_cons.
  cbn [startswith]. rewrite andb_true_r.
  destruct (Ascii.eqb a c); reflexivity.
Qed.

Lemma replace_app (a : ascii) (new x y : string) :
  replace (String a "") new (x +:+ y)
  = replace (String a "") new x +:+ replace (String a "") new y.
Proof.
  induction x as [|c x IH]; [reflexivity|].
  rewrite app_cons_str, !replace_cons, IH, app_assoc_str. reflexivity.
Qed.

Lemma escape_one (c : ascii) :
  escape_value (String c "") = escape_char c.
Proof. destruct c as [[] [] [] [] [] [] [] []]; reflexivity. Qed.

(** The three replacements in a row are a character-by-character
    substitution: no replacement text contains a character that a later
    replacement looks for. *)
Lemma escape_value_spec (v : string) : escape_value v = escape_chars v.
Proof.
  induction v as [|c v IH]; [reflexivity|].
  change (String c v) with (String c "" +:+ v).
  unfold escape_value in *. rewrite !replace_app, IH.
  fold (escape_value (String c "")). rewrite escape_one. reflexivity.
Qed.

Lemma truncate_spec (v : string) :
  (if (50 <? String.length v)%nat then slice None (Some 50) v +:+ "..." else v)
  = truncate50 v.
Proof.
  unfold truncate50. destruct (Nat.ltb_spec 50 (String.length v)); [|reflexivity].
  change (Some 50) with (Some (Z.of_nat 50)). rewrite slice_prefix by lia.
  reflexivity.
Qed.

Lemma format_tokens (m : gmap string string) (feature_type : string) :
  format_gff_attributes m feature_type
  = match spec_tokens m feature_type with
    | [] => "."
    | ts => join ";" ts
    end.
Proof.
  unfold format_gff_attributes, spec_tokens.
  destruct (m !! "locus_tag"), (m !! "gene"), (m !! "product"),
    (m !! "protein_id"), (m !! "translation"), (m !! "note");
    cbn [fmap option_fmap option_map token app negb];
    rewrite ?escape_value_spec, ?truncate_spec;
    destruct (String.eqb feature_type "gene"); reflexivity.
Qed.


Lemma format_none (m : gmap string string) (feature_type : string) :
  (forall k, In k recognized_keys -> m !! k = None) ->
  format_gff_attributes m feature_type = ".".
Proof.
  intros H. unfold format_gff_attributes.
  rewrite (H "locus_tag"), (H "gene"), (H "product"), (H "protein_id"),
    (H "translation"), (H "note") by (simpl; tauto).
  reflexivity.
Qed.



Example format_locus_product :
  format_gff_attributes
    (<[ "product" := "Hypothetical protein" ]> {[ "locus_tag" := "ABC123" ]}) "CDS"
  = "ID=ABC123;Name=ABC123;product=Hypothetical protein".
Proof. vm_compute. reflexivity. Qed.

Example format_long_translation :
  format_gff_attributes
    {[ "translation" :=
         "MKTAYIAKQRQISFVKSHFSRQLEERLGLIEVQAPILSRVGDGTQDNLSGAEKAVQVKVKALPDAQFEVV" ]}
    "CDS"
  = "translation=MKTAYIAKQRQISFVKSHFSRQLEERLGLIEVQAPILSRVGDGTQDNLSG...".
Proof. vm_compute. reflexivity. Qed.

(** ** The qualifier extractor *)

Lemma split1_unfold (sep s : string) :
  split1 sep s =
  if startswith s sep then [""; str_drop (String.length sep) s]
  else match s with
       | EmptyString => [""]
       | String c r =>
           match split1 sep r with
           | h :: t => String c h :: t
           | [] => [String c ""]
           end
       end.
Proof. destruct s; reflexivity. Qed.

Lemma split1_contains (sep s : string) :
  contains sep s = true -> exists k v, split1 sep s = [k; v].
Proof.
  induction s as [|c s IH]; rewrite contains_unfold, split1_unfold;
    destruct (startswith _ sep); try discriminate; eauto.
  cbn [orb]. intros H. destruct (IH H) as (k & v & ->). eauto.
Qed.

(** A line whose trimmed text starts with a slash opens a qualifier: the
    pending pair is flushed and the key and value of the line are pending. *)
Lemma extract_step_qualifier (st : extract_state) (line : string) :
  startswith (strip line) "/" = true ->
  exists v,
    extract_step st line
    = Ok (mk_extract_state (flush st) (Some (key_of_line (strip line))) v).
Proof.
  intros H. unfold extract_step, key_of_line. rewrite H.
  destruct (startswith_inv _ _ H) as [t Ht]. rewrite Ht.
  change ("/" +:+ t) with (String "/" t). rewrite slice_tail.
  destruct (contains "=" (String "/" t)) eqn:Hc.
  - rewrite contains_unfold in Hc. rewrite startswith_cons in Hc. cbn [orb andb] in Hc.
    change (Ascii.eqb "=" "/") with false in Hc. cbn [orb andb] in Hc.
    destruct (split1_contains _ _ Hc) as (k & v & ->). exists v. reflexivity.
  - exists "". reflexivity.
Qed.

(** Any other line is a continuation: a space and the trimmed line are
    appended to the pending value. *)
Lemma extract_step_continuation (st : extract_state) (line : string) :
  startswith (strip line) "/" = false ->
  extract_step st line
  = Ok (mk_extract_state (attributes_of st) (current_qualifier st)
          (current_value st +:+ " " +:+ strip line)).
Proof. intros H. unfold extract_step. rewrite H. reflexivity. Qed.

Lemma extract_step_total (st : extract_state) (line : string) :
  exists st', extract_step st line = Ok st'.
Proof.
  destruct (startswith (strip line) "/") eqn:H.
  - destruct (extract_step_qualifier st line H) as [v ->]. eauto.
  - rewrite (extract_step_continuation st line H). eauto.
Qed.

Lemma extract_loop_total (lines : list string) (st : extract_state) :
  exists st', extract_loop st lines = Ok st'.
Proof.
  revert st. induction lines as [|l lines IH]; intros st; [simpl; eauto|].
  cbn [extract_loop]. destruct (extract_step_total st l) as [st1 ->]. apply IH.
Qed.

Lemma extract_attributes_total (lines : list string) :
  exists m, extract_attributes lines = Ok m.
Proof.
  unfold extract_attributes.
  destruct (extract_loop_total lines initial_extract_state) as [st ->].
  simpl. eauto.
Qed.

Lemma flush_pending (st : extract_state) (q : string) :
  current_qualifier st = Some q -> q <> "" ->
  flush st = <[q := strip_chars is_quote (current_value st)]> (attributes_of st).
Proof.
  intros Hq Hne. unfold flush. rewrite Hq.
  destruct q; [congruence | reflexivity].
Qed.

Lemma lstrip_split (p : ascii -> bool) (s : string) :
  exists l, s = l +:+ lstrip p s /\ all_chars p l = true.
Proof.
  induction s as [|c s IH]; [exists ""; auto|]. simpl.
  destruct (p c) eqn:Hc.
  - destruct IH as (l & Hl & Ha). exists (String c l). split.
    + rewrite app_cons_str, <- Hl. reflexivity.
    + simpl. rewrite Hc, Ha. reflexivity.
  - exists "". auto.
Qed.

Lemma rstrip_all (p : ascii -> bool) (s : string) :
  all_chars p s = true -> rstrip p s = "".
Proof.
  induction s as [|c s IH]; [reflexivity|]. cbn [rstrip all_chars].
  intros H. apply andb_true_iff in H as [Hc Hs]. rewrite (IH Hs), Hc. reflexivity.
Qed.

Lemma rstrip_split (p : ascii -> bool) (s : string) :
  exists r, s = rstrip p s +:+ r /\ all_chars p r = true
            /\ last_char_in p (rstrip p s) = false
            /\ first_char_in p (rstrip p s) = first_char_in p s && negb (all_chars p s).
Proof.
  induction s as [|c s IH]; [exists ""; auto|].
  destruct IH as (r & Hr & Ha & Hl & Hf). cbn [rstrip].
  destruct (rstrip p s) as [|d u] eqn:Eu.
  - rewrite app_nil_l_str in Hr. subst r. cbn [all_chars first_char_in].
    destruct (p c) eqn:Hc.
    + exists (String c s). cbn [all_chars]. rewrite Hc, Ha. auto.
    + exists s. cbn [last_char_in first_char_in]. rewrite Hc. auto.
  - exists r. split; [rewrite app_cons_str, <- Hr; reflexivity|].
    split; [exact Ha|]. split; [exact Hl|].
    cbn [first_char_in all_chars].
    assert (Hs : all_chars p s = false).
    { destruct (all_chars p s) eqn:E; [|reflexivity].
      rewrite (rstrip_all p s E) in Eu. discriminate. }
    rewrite Hs, andb_false_r. cbn [negb]. rewrite andb_true_r. reflexivity.
Qed.

(** Stripping removes every leading and every trailing character of the
    set, and nothing else. *)
Lemma strip_chars_spec (p : ascii -> bool) (s : string) :
  exists l r,
    s = l +:+ strip_chars p s +:+ r
    /\ all_chars p l = true /\ all_chars p r = true
    /\ first_char_in p (strip_chars p s) = false
    /\ last_char_in p (strip_chars p s) = false.
Proof.
  unfold strip_chars.
  destruct (lstrip_split p s) as (l & Hl & Hal).
  destruct (rstrip_split p (lstrip p s)) as (r & Hr & Har & Hlast & Hfirst).
  exists l, r. split; [rewrite <- Hr; exact Hl|].
  split; [exact Hal|]. split; [exact Har|]. split; [|exact Hlast].
  rewrite Hfirst, lstrip_first. reflexivity.
Qed.

(** ** C8 *)

(** C8, as the code has it.  When a pending pair with a non-empty key is
    flushed, on a line that opens the next qualifier or at the end of the
    input, the value stored is the accumulated value without any of its
    leading and trailing double quotes; a continuation line appends one
    space and the trimmed line to the pending value; no qualifier lines
    give the empty map. *)
Theorem extract_attributes_flush :
  (forall (st : extract_state) (q : string),
      current_qualifier st = Some q -> q <> "" ->
      flush st = <[q := strip_chars is_quote (current_value st)]> (attributes_of st))
  /\ (forall (st : extract_state) (line : string),
         startswith (strip line) "/" = true ->
         exists v, extract_step st line
                   = Ok (mk_extract_state (flush st)
                           (Some (key_of_line (strip line))) v))
  /\ (forall lines : list string,
         exists st, extract_loop initial_extract_state lines = Ok st
                    /\ extract_attributes lines = Ok (flush st))
  /\ (forall v : string,
         exists l r,
           v = l +:+ strip_chars is_quote v +:+ r
           /\ all_chars is_quote l = true /\ all_chars is_quote r = true
           /\ first_char_in is_quote (strip_chars is_quote v) = false
           /\ last_char_in is_quote (strip_chars is_quote v) = false)
  /\ (forall (st : extract_state) (line : string),
         startswith (strip line) "/" = false ->
         extract_step st line
         = Ok (mk_extract_state (attributes_of st) (current_qualifier st)
                 (current_value st +:+ " " +:+ strip line)))
  /\ extract_attributes [] = Ok ∅.
Proof.
  split; [exact flush_pending|].
  split; [exact extract_step_qualifier|].
  split.
  { intros lines. unfold extract_attributes.
    destruct (extract_loop_total lines initial_extract_state) as [st ->].
    exists st. split; reflexivity. }
  split; [exact (strip_chars_spec is_quote)|].
  split; [exact extract_step_continuation | reflexivity].
Qed.

Lemma extract_attributes_flush_witness :
  flush (mk_extract_state ∅ (Some "gene") (DQUOTE +:+ "recA" +:+ DQUOTE))
  = {[ "gene" := "recA" ]}
  /\ extract_step (mk_extract_state ∅ (Some "note") "first")
       "                     second line  "
     = Ok (mk_extract_state ∅ (Some "note") "first second line")
  /\ exists v, extract_step initial_extract_state "   /pseudo"
               = Ok (mk_extract_state ∅ (Some "pseudo") v).
Proof.
  destruct extract_attributes_flush as (Hflush & Hopen & _ & _ & Hcont & _).
  split; [|split].
  - rewrite (Hflush (mk_extract_state ∅ (Some "gene") (DQUOTE +:+ "recA" +:+ DQUOTE))
               "gene" eq_refl); [reflexivity | discriminate].
  - apply (Hcont (mk_extract_state ∅ (Some "note") "first")). reflexivity.
  - apply (Hopen initial_extract_state "   /pseudo"). reflexivity.
Defined.

(** The value [""x""], with two quotes on each side, is stored as [x]:
    the flush does not stop after one quote. *)
Lemma one_quote_counterexample :
  ~ (forall (lines : list string) (st : extract_state) (q : string),
        extract_loop initial_extract_state lines = Ok st ->
        current_qualifier st = Some q -> q <> "" ->
        extract_attributes lines
        = Ok (<[q := strip_one_quote (current_value st)]> (attributes_of st))).
Proof.
  intros H.
  specialize (H ["/note=" +:+ DQUOTE +:+ DQUOTE +:+ "x" +:+ DQUOTE +:+ DQUOTE]
                _ "note" eq_refl eq_refl).
  assert (Hne : "note" <> "") by discriminate. specialize (H Hne).
  assert (Hv : forall m1 m2 : gmap string string,
             Ok m1 = Ok m2 -> m1 !! "note" = m2 !! "note") by congruence.
  apply Hv in H. vm_compute in H. discriminate H.
Qed.

(** ** C9 *)

(** C9.  The qualifier line [/note="hello; world"] is extracted as the
    entry [note -> hello; world], without the outer quotes, and the
    formatter turns that map into the token [note=hello%3B world],
    whatever the feature type. *)
Theorem note_round_trip (feature_type : string) :
  exists m : gmap string string,
    extract_attributes
      ["/note=" +:+ DQUOTE +:+ "hello; world" +:+ DQUOTE]
    = Ok m
    /\ m = {[ "note" := "hello; world" ]}
    /\ m !! "note" = Some "hello; world"
    /\ format_gff_attributes m feature_type = "note=hello%3B world".
Proof.
  exists {[ "note" := "hello; world" ]}.
  split; [vm_compute; reflexivity|]. split; [reflexivity|].
  split; [vm_compute; reflexivity|].
  rewrite format_tokens. unfold spec_tokens.
  change (({[ "note" := "hello; world" ]} : gmap string string) !! "locus_tag")
    with (@None string).
  change (({[ "note" := "hello; world" ]} : gmap string string) !! "gene")
    with (@None string).
  change (({[ "note" := "hello; world" ]} : gmap string string) !! "product")
    with (@None string).
  change (({[ "note" := "hello; world" ]} : gmap string string) !! "protein_id")
    with (@None string).
  change (({[ "note" := "hello; world" ]} : gmap string string) !! "translation")
    with (@None string).
  change (({[ "note" := "hello; world" ]} : gmap string string) !! "note")
    with (Some "hello; world").
  destruct (String.eqb feature_type "gene"); reflexivity.
Qed.

(** ** C10 *)

Lemma extract_loop_app (a b : list string) (st : extract_state) :
  extract_loop st (a ++ b) = (do st' <- extract_loop st a; extract_loop st' b).
Proof.
  revert st. induction a as [|l a IH]; intros st; [reflexivity|].
  cbn [app extract_loop]. destruct (extract_step st l) as [st1|e]; [|reflexivity].
  cbn [bind]. apply IH.
Qed.

(** While no key is pending, the accumulated text has no influence on the
    map that comes out. *)
Lemma pending_text_irrelevant (rest : list string) (a : gmap string string)
  (v1 v2 : string) :
  (do st <- extract_loop (mk_extract_state a None v1) rest; Ok (flush st))
  = (do st <- extract_loop (mk_extract_state a None v2) rest; Ok (flush st)).
Proof.
  revert v1 v2. induction rest as [|l rest IH]; intros v1 v2; [reflexivity|].
  cbn [extract_loop].
  destruct (startswith (strip l) "/") eqn:Hl.
  - unfold extract_step. rewrite Hl. reflexivity.
  - rewrite !extract_step_continuation by exact Hl. cbn [bind]. apply IH.
Qed.

Lemma continuation_prefix (pre : list string) (a : gmap string string) (v : string) :
  Forall (fun l => startswith (strip l) "/" = false) pre ->
  exists v', extract_loop (mk_extract_state a None v) pre
             = Ok (mk_extract_state a None v').
Proof.
  intros H. revert v. induction H as [|l pre Hl _ IH]; intros v; [simpl; eauto|].
  cbn [extract_loop]. rewrite extract_step_continuation by exact Hl.
  cbn [bind]. apply IH.
Qed.

Lemma discarded_prefix (pre rest : list string) :
  Forall (fun l => startswith (strip l) "/" = false) pre ->
  extract_attributes (pre ++ rest) = extract_attributes rest.
Proof.
  intros H. unfold extract_attributes. rewrite extract_loop_app.
  destruct (continuation_prefix pre ∅ "" H) as [v' Hv].
  unfold initial_extract_state. rewrite Hv. cbn [bind].
  apply pending_text_irrelevant.
Qed.

Lemma announced_mono (seen : list string) (l k : string) :
  announced seen k -> announced (seen ++ [l]) k.
Proof.
  intros (x & Hin & Hx). exists x. split; [|exact Hx].
  apply in_or_app. left. exact Hin.
Qed.

Lemma flush_keys (seen : list string) (st : extract_state) (k : string) :
  keys_announced seen st -> is_Some (flush st !! k) -> announced seen k.
Proof.
  intros [Hattrs Hq]. unfold flush.
  destruct (current_qualifier st) as [q|]; [|apply Hattrs].
  destruct (truthy (Some q)); [|apply Hattrs].
  destruct (decide (q = k)) as [->|Hne].
  - intros _. apply Hq. reflexivity.
  - rewrite lookup_insert_ne by exact Hne. apply Hattrs.
Qed.

Lemma extract_step_keys (seen : list string) (st st' : extract_state) (l : string) :
  keys_announced seen st -> extract_step st l = Ok st' ->
  keys_announced (seen ++ [l]) st'.
Proof.
  intros Hinv Hstep. destruct (startswith (strip l) "/") eqn:Hl.
  - destruct (extract_step_qualifier st l Hl) as [v Hv].
    rewrite Hv in Hstep. injection Hstep as <-. split; cbn.
    + intros k Hk. apply announced_mono. exact (flush_keys _ _ _ Hinv Hk).
    + intros q Hq. injection Hq as <-. exists l. split; [|split; [exact Hl|reflexivity]].
      apply in_or_app. right. left. reflexivity.
  - rewrite (extract_step_continuation st l Hl) in Hstep. injection Hstep as <-.
    destruct Hinv as [Hattrs Hq]. split; cbn.
    + intros k Hk. apply announced_mono, Hattrs, Hk.
    + intros q Hq'. apply announced_mono, Hq, Hq'.
Qed.

Lemma extract_loop_keys (lines seen : list string) (st st' : extract_state) :
  keys_announced seen st -> extract_loop st lines = Ok st' ->
  keys_announced (seen ++ lines) st'.
Proof.
  revert seen st. induction lines as [|l lines IH]; intros seen st Hinv Hloop.
  - simpl in Hloop. injection Hloop as <-. rewrite List.app_nil_r. exact Hinv.
  - cbn [extract_loop] in Hloop.
    destruct (extract_step st l) as [st1|e] eqn:Hstep; [|discriminate].
    cbn [bind] in Hloop.
    replace (seen ++ l :: lines) with ((seen ++ [l]) ++ lines)
      by (rewrite <- List.app_assoc; reflexivity).
    apply (IH _ st1); [|exact Hloop].
    exact (extract_step_keys _ _ _ _ Hinv Hstep).
Qed.

(** C10.  Lines that come before the first line starting with a slash are
    discarded: the map is the one obtained without them.  For every
    sequence of lines the extraction returns a map, and each of its keys
    is the key announced by a line that starts with a slash. *)
Theorem leading_continuations_discarded :
  (forall pre rest : list string,
      Forall (fun l => startswith (strip l) "/" = false) pre ->
      extract_attributes (pre ++ rest) = extract_attributes rest)
  /\ (forall lines : list string,
         exists m, extract_attributes lines = Ok m
                   /\ forall k, is_Some (m !! k) -> announced lines k).
Proof.
  split; [exact discarded_prefix|].
  intros lines. unfold extract_attributes.
  destruct (extract_loop_total lines initial_extract_state) as [st Hst].
  rewrite Hst. cbn [bind]. exists (flush st). split; [reflexivity|].
  intros k Hk.
  assert (Hinit : keys_announced [] initial_extract_state).
  { split; cbn.
    - intros k0 [x Hx]. rewrite lookup_empty in Hx. discriminate.
    - discriminate. }
  pose proof (extract_loop_keys lines [] _ _ Hinit Hst) as Hinv.
  exact (flush_keys _ _ _ Hinv Hk).
Qed.

Lemma leading_continuations_discarded_witness :
  extract_attributes (["  stray text"; "more of it"] ++ ["  /gene=recA"])
  = extract_attributes ["  /gene=recA"]
  /\ announced ["  stray text"; "  /gene=recA"] "gene".
Proof.
  destruct leading_continuations_discarded as [Hprefix Hkeys]. split.
  - apply Hprefix. repeat constructor.
  - destruct (Hkeys ["  stray text"; "  /gene=recA"]) as (m & Hm & Hk).
    apply Hk. vm_compute in Hm. injection Hm as <-. vm_compute. eauto.
Defined.

(** ** The record splitter *)

Lemma split_unfold (a : ascii) (sep s : string) :
  split (String a sep) s =
  if startswith s (String a sep)
  then "" :: split (String a sep) (str_drop (String.length (String a sep)) s)
  else match s with
       | EmptyString => [""]
       | String c r =>
           match split (String a sep) r with
           | h :: t => String c h :: t
           | [] => [String c ""]
           end
       end.
Proof.
  destruct s as [|c r]; [reflexivity|].
  unfold split at 1. cbn [split_skip].
  destruct (startswith (String c r) (String a sep)); [|reflexivity].
  rewrite split_skip_drop. cbn [String.length str_drop].
  replace (S (String.length sep) - 1)%nat with (String.length sep) by lia.
  reflexivity.
Qed.

Lemma split_not_nil (sep s : string) : split sep s <> [].
Proof.
  unfold split. generalize 0%nat. induction s as [|c s IH]; intros k; [discriminate|].
  cbn [split_skip]. destruct k; [|apply IH].
  destruct (startswith (String c s) sep); [discriminate|].
  destruct (split_skip sep 0 s); discriminate.
Qed.

Lemma join_cons (sep x : string) (l : list string) :
  l <> [] -> join sep (x :: l) = x +:+ sep +:+ join sep l.
Proof. destruct l; [congruence | reflexivity]. Qed.

Lemma join_cons_head (sep : string) (c : ascii) (h : string) (t : list string) :
  join sep (String c h :: t) = String c (join sep (h :: t)).
Proof. destruct t; reflexivity. Qed.

Lemma str_drop_shorter (k : nat) (s : string) :
  (String.length (str_drop k s) <= String.length s)%nat.
Proof.
  revert s. induction k as [|k IH]; intros [|c s]; simpl; try lia.
  specialize (IH s). lia.
Qed.

(** Joining the pieces with the separator gives the text back: the cuts
    are occurrences of the separator and nothing else is removed. *)
Lemma join_split (a : ascii) (sep s : string) :
  join (String a sep) (split (String a sep) s) = s.
Proof.
  remember (String.length s) as n eqn:Hn.
  revert s Hn. induction n as [n IH] using lt_wf_ind. intros s Hn.
  rewrite split_unfold.
  destruct (startswith s (String a sep)) eqn:Hs.
  - destruct (startswith_inv _ _ Hs) as [t ->].
    rewrite str_drop_length, join_cons by apply split_not_nil.
    rewrite (IH (String.length t)); [reflexivity | | reflexivity].
    subst n. rewrite length_app_str. simpl. lia.
  - destruct s as [|c r]; [reflexivity|].
    pose proof (IH (String.length r)) as IHr.
    specialize (IHr ltac:(subst n; simpl; lia) r eq_refl).
    destruct (split (String a sep) r) as [|h t] eqn:E.
    + destruct (split_not_nil _ _ E).
    + rewrite join_cons_head, IHr. reflexivity.
Qed.

Lemma startswith_app_more (x w p : string) :
  startswith x p = true -> startswith (x +:+ w) p = true.
Proof.
  intros H. destruct (startswith_inv _ _ H) as [t ->].
  rewrite app_assoc_str. apply startswith_app.
Qed.

Lemma join_head_prefix (sep h : string) (t : list string) :
  exists w, join sep (h :: t) = h +:+ w.
Proof.
  destruct t as [|x t].
  - exists "". simpl. rewrite app_nil_r_str. reflexivity.
  - exists (sep +:+ join sep (x :: t)). reflexivity.
Qed.

(** No piece contains the separator: every occurrence is a cut. *)
Lemma split_pieces_free (a : ascii) (sep s : string) :
  Forall (fun p => contains (String a sep) p = false) (split (String a sep) s).
Proof.
  remember (String.length s) as n eqn:Hn.
  revert s Hn. induction n as [n IH] using lt_wf_ind. intros s Hn.
  rewrite split_unfold.
  destruct (startswith s (String a sep)) eqn:Hs.
  - destruct (startswith_inv _ _ Hs) as [t ->].
    rewrite str_drop_length. constructor; [reflexivity|].
    apply (IH (String.length t)); [|reflexivity].
    subst n. rewrite length_app_str. simpl. lia.
  - destruct s as [|c r]; [repeat constructor|].
    pose proof (IH (String.length r) ltac:(subst n; simpl; lia) r eq_refl) as IHr.
    pose proof (join_split a sep r) as Hj.
    destruct (split (String a sep) r) as [|h t] eqn:E.
    + destruct (split_not_nil _ _ E).
    + apply List.Forall_cons_iff in IHr as [Hh Ht]. constructor; [|exact Ht].
      rewrite contains_unfold, Hh, orb_false_r.
      destruct (startswith (String c h) (String a sep)) eqn:Hc; [|reflexivity].
      destruct (join_head_prefix (String a sep) h t) as [w Hw].
      rewrite Hw in Hj. rewrite <- Hj in Hs.
      rewrite <- app_cons_str in Hs.
      rewrite (startswith_app_more _ w _ Hc) in Hs. discriminate.
Qed.

Lemma records_loop_filter (records : list string) :
  records_loop records
  = records_loop (List.filter (fun r => negb (is_blank r)) records).
Proof.
  induction records as [|r records IH]; [reflexivity|].
  cbn [records_loop List.filter]. destruct (is_blank r) eqn:Hb; cbn [negb].
  - exact IH.
  - cbn [records_loop]. rewrite Hb, IH. reflexivity.
Qed.

(** ** C7 *)

(** C7, as the code has it.  The text is cut at every occurrence of the
    two slashes followed by a newline, wherever on a line it stands: the
    pieces joined by that separator give the text back and no piece
    contains it.  The records are the pieces that are not blank, in order,
    and the blank pieces contribute nothing to the output. *)
Theorem split_records_spec (content : string) :
  join RECORD_SEP (split RECORD_SEP content) = content
  /\ Forall (fun p => contains RECORD_SEP p = false) (split RECORD_SEP content)
  /\ split_records content
     = List.filter (fun r => negb (is_blank r)) (split RECORD_SEP content)
  /\ parse_gbff_file content
     = writes_then ["##gff-version 3" +:+ NL] (records_loop (split_records content)).
Proof.
  split; [apply join_split|]. split; [apply split_pieces_free|].
  split; [reflexivity|].
  unfold parse_gbff_file, split_records. rewrite <- records_loop_filter. reflexivity.
Qed.

(** A line that merely ends in two slashes is cut as well: the text below
    has no line made of the terminator alone and still gives two records. *)
Lemma terminator_line_counterexample :
  ~ (forall content : string,
        (length (split_records content) <= S (length (terminator_lines content)))%nat).
Proof.
  intros H. specialize (H ("LOCUS       AB1 9 bp" +:+ NL +:+ "COMMENT     see http://"
                           +:+ NL +:+ "FEATURES" +:+ NL)).
  vm_compute in H. lia.
Qed.

(** ** Header lines *)

Lemma split_ws_tokens (s : string) : Forall (fun t => t <> "") (split_ws s).
Proof.
  induction s as [|c s IH]; [constructor|]. cbn [split_ws].
  destruct (is_space c); [exact IH|].
  destruct s as [|d s']; [repeat constructor; discriminate|].
  destruct (is_space d); [constructor; [discriminate | exact IH]|].
  destruct (split_ws (String d s')) as [|h t].
  - repeat constructor; discriminate.
  - apply List.Forall_cons_iff in IH as [_ Ht]. constructor; [discriminate | exact Ht].
Qed.

Lemma truthy_nonempty (s : string) : s <> "" -> truthy (Some s) = true.
Proof. destruct s; [congruence | reflexivity]. Qed.

Lemma usable_locus_truthy (l p1 p2 : string) :
  usable_locus l = Some (p1, p2) -> truthy (Some p1) = true.
Proof.
  unfold usable_locus. destruct (startswith l "LOCUS"); [|discriminate].
  pose proof (split_ws_tokens l) as Ht.
  destruct (split_ws l) as [|x [|y [|z r]]]; try discriminate.
  intros H. injection H as <- <-.
  apply List.Forall_cons_iff in Ht as [_ Ht].
  apply List.Forall_cons_iff in Ht as [Hy _].
  apply truthy_nonempty, Hy.
Qed.

Lemma header_step_locus (st : option string * option string) (l p1 p2 : string) :
  usable_locus l = Some (p1, p2) -> header_step st l = Ok (Some p1, Some p2).
Proof.
  unfold usable_locus, header_step. destruct st as [sid len].
  destruct (startswith l "LOCUS"); [|discriminate].
  destruct (split_ws l) as [|x [|y [|z r]]]; try discriminate.
  intros H. injection H as <- <-. reflexivity.
Qed.

Lemma header_step_keep (sid len : option string) (l : string) :
  usable_locus l = None -> truthy sid = true ->
  header_step (sid, len) l = Ok (sid, len).
Proof.
  unfold usable_locus, header_step. intros Hu Ht.
  destruct (startswith l "LOCUS").
  - destruct (split_ws l) as [|x [|y [|z r]]]; try discriminate; reflexivity.
  - rewrite Ht. destruct (startswith l "ACCESSION"); reflexivity.
Qed.

Lemma header_loop_keep (lines : list string) (sid len : option string) :
  Forall (fun l => usable_locus l = None) lines -> truthy sid = true ->
  header_loop (sid, len) lines = Ok (sid, len).
Proof.
  intros H Ht. induction H as [|l lines Hl _ IH]; [reflexivity|].
  cbn [header_loop]. rewrite (header_step_keep _ _ _ Hl Ht). exact IH.
Qed.

Lemma last_usable_none (lines : list string) :
  last_usable_locus lines = None -> Forall (fun l => usable_locus l = None) lines.
Proof.
  induction lines as [|l lines IH]; [constructor|]. cbn [last_usable_locus].
  destruct (last_usable_locus lines); [discriminate|].
  intros H. constructor; [exact H | apply IH; reflexivity].
Qed.

(** When the header lines are read without an exception, the state they
    leave comes from the last [LOCUS] line that has three tokens. *)
Lemma header_loop_locus (lines : list string) (p1 p2 : string)
  (st r : option string * option string) :
  last_usable_locus lines = Some (p1, p2) ->
  header_loop st lines = Ok r -> r = (Some p1, Some p2).
Proof.
  revert st. induction lines as [|l lines IH]; intros st Hlast Hloop; [discriminate|].
  cbn [last_usable_locus] in Hlast. cbn [header_loop] in Hloop.
  destruct (last_usable_locus lines) as [x|] eqn:Hrest.
  - injection Hlast as ->.
    destruct (header_step st l) as [st1|e]; [|discriminate].
    exact (IH st1 eq_refl Hloop).
  - rewrite (header_step_locus st l p1 p2 Hlast) in Hloop. cbn [bind] in Hloop.
    rewrite (header_loop_keep lines _ _ (last_usable_none _ Hrest)
               (usable_locus_truthy _ _ _ Hlast)) in Hloop.
    congruence.
Qed.



(** ** Output lines *)

Lemma gff_line_ok (seqid ty loc : string) (qs : list string) :
  gff_line seqid ty loc qs = Ok (feature_line seqid (ty, loc, qs)).
Proof.
  unfold gff_line, feature_line, feature_columns, location_of, qualifier_map.
  destruct (parse_location_returns loc) as (a & b & -> & _).
  destruct (extract_attributes_total qs) as [m ->].
  cbn [bind fst snd join]. unfold phase_of.
  rewrite !app_assoc_str.
  destruct (String.eqb ty "CDS"); reflexivity.
Qed.

Lemma run_features_gff (seqid : string) (fs : list feature) :
  run_features (gff_line seqid) fs = (map (feature_line seqid) fs, None).
Proof.
  induction fs as [|[[ty loc] qs] fs IH]; [reflexivity|].
  cbn [run_features map]. rewrite gff_line_ok, IH. reflexivity.
Qed.

Lemma process_record_spec (record : string) (sid len : option string) :
  header_loop (None, None) (split NL record) = Ok (sid, len) ->
  process_record record = Some (record_output record, None).
Proof.
  intros H. unfold process_record, record_output. rewrite H.
  rewrite scan_record_spec, run_features_gff. reflexivity.
Qed.

Lemma process_record_total (record : string) :
  exists w e, process_record record = Some (w, e).
Proof.
  destruct (header_loop (None, None) (split NL record)) as [[sid len]|e] eqn:H.
  - rewrite (process_record_spec _ _ _ H). eauto.
  - unfold process_record. rewrite H. eauto.
Qed.

Lemma records_loop_total (records : list string) :
  exists w e, records_loop records = Some (w, e).
Proof.
  induction records as [|r records (w & e & IH)]; [simpl; eauto|].
  cbn [records_loop]. destruct (is_blank r); [eauto|].
  destruct (process_record_total r) as (w1 & [e1|] & ->); [eauto|].
  rewrite IH. simpl. eauto.
Qed.



Lemma last_usable_in (lines : list string) (p1 p2 : string) :
  last_usable_locus lines = Some (p1, p2) ->
  exists l, In l lines /\ usable_locus l = Some (p1, p2).
Proof.
  induction lines as [|l lines IH]; [discriminate|]. cbn [last_usable_locus].
  destruct (last_usable_locus lines) as [x|].
  - intros H. destruct (IH H) as (l' & Hin & Hl'). exists l'. split; [right|]; assumption.
  - intros H. exists l. split; [left; reflexivity | exact H].
Qed.

Lemma seqid_or_unknown_set (s : string) :
  truthy (Some s) = true -> seqid_or_unknown (Some s) = s.
Proof. unfold seqid_or_unknown. intros ->. reflexivity. Qed.




(** ** C5 *)



(** ** C6 *)

Lemma header_loop_app (a b : list string) (st : option string * option string) :
  header_loop st (a ++ b) = (do st' <- header_loop st a; header_loop st' b).
Proof.
  revert st. induction a as [|l a IH]; intros st; [reflexivity|].
  cbn [app header_loop]. destruct (header_step st l) as [st1|e]; [|reflexivity].
  cbn [bind]. apply IH.
Qed.

(** With a [LOCUS] line of three tokens, the seqid is its second token. *)
Lemma record_seqid_locus (lines : list string) (p1 p2 s : string) :
  last_usable_locus lines = Some (p1, p2) ->
  record_seqid lines = Ok s -> s = p1.
Proof.
  intros Hlast. unfold record_seqid.
  destruct (header_loop (None, None) lines) as [r|e] eqn:Hloop; [|discriminate].
  rewrite (header_loop_locus _ _ _ _ _ Hlast Hloop). cbn [bind fst].
  destruct (last_usable_in _ _ _ Hlast) as (l & _ & Hl).
  rewrite (seqid_or_unknown_set _ (usable_locus_truthy _ _ _ Hl)). congruence.
Qed.

(** Lines that are neither usable [LOCUS] lines nor [ACCESSION] lines
    leave the state as it is. *)
Lemma header_loop_other (lines : list string) (st : option string * option string) :
  Forall (fun l => usable_locus l = None /\ startswith l "ACCESSION" = false) lines ->
  header_loop st lines = Ok st.
Proof.
  intros H. induction H as [|l lines [Hu Ha] _ IH]; [reflexivity|].
  cbn [header_loop].
  assert (Hstep : header_step st l = Ok st).
  { unfold usable_locus in Hu. unfold header_step. destruct st as [sid len].
    rewrite Ha. destruct (startswith l "LOCUS"); [|reflexivity].
    destruct (split_ws l) as [|x [|y [|z r]]]; try discriminate; reflexivity. }
  rewrite Hstep. exact IH.
Qed.

(** Without a usable [LOCUS] line, the seqid is the second token of the
    first [ACCESSION] line, when that line has one. *)
Lemma record_seqid_accession (pre post : list string) (l x t : string)
  (more : list string) :
  Forall (fun l => usable_locus l = None /\ startswith l "ACCESSION" = false) pre ->
  startswith l "LOCUS" = false -> startswith l "ACCESSION" = true ->
  split_ws l = x :: t :: more ->
  last_usable_locus post = None ->
  record_seqid (pre ++ l :: post) = Ok t.
Proof.
  intros Hpre Hl Ha Hparts Hpost. unfold record_seqid.
  rewrite header_loop_app, (header_loop_other _ _ Hpre). cbn [bind header_loop].
  assert (Ht : truthy (Some t) = true).
  { pose proof (split_ws_tokens l) as Hf. rewrite Hparts in Hf.
    apply List.Forall_cons_iff in Hf as [_ Hf].
    apply List.Forall_cons_iff in Hf as [Hf _].
    apply truthy_nonempty, Hf. }
  assert (Hstep : header_step (None, None) l = Ok (Some t, None)).
  { unfold header_step. rewrite Hl, Ha, Hparts. reflexivity. }
  rewrite Hstep. cbn [bind].
  rewrite (header_loop_keep post _ _ (last_usable_none _ Hpost) Ht).
  cbn [bind fst]. rewrite (seqid_or_unknown_set _ Ht). reflexivity.
Qed.

(** Without usable [LOCUS] lines and without [ACCESSION] lines, the seqid
    is [unknown]. *)
Lemma record_seqid_default (lines : list string) :
  Forall (fun l => usable_locus l = None /\ startswith l "ACCESSION" = false) lines ->
  record_seqid lines = Ok "unknown".
Proof.
  intros H. unfold record_seqid. rewrite (header_loop_other _ _ H). reflexivity.
Qed.

(** C6.  The code at the failing input.  An [ACCESSION] line without a
    second token, met while no seqid is set, raises [IndexError]: the
    record gets no seqid, not even [unknown], and the conversion stops
    with only the version line written.  The [LOCUS] line is read under a
    guard on the number of tokens, and the same record with a bare
    [LOCUS] line gets the seqid [unknown]. *)
Theorem bare_accession_raises :
  record_seqid ["ACCESSION"; "FEATURES             Location/Qualifiers";
                "     gene            1..9"]
  = Raise IndexError
  /\ parse_gbff_file
       (join NL ["ACCESSION"; "FEATURES             Location/Qualifiers";
                 "     gene            1..9"; "//"; ""])
     = Some (["##gff-version 3" +:+ NL], Some IndexError)
  /\ record_seqid ["LOCUS"; "FEATURES             Location/Qualifiers";
                   "     gene            1..9"]
     = Ok "unknown".
Proof. split; [|split]; vm_compute; reflexivity. Qed.

(** * Further properties *)

(** ** The location resolver *)

Lemma slice_unwrap_any (e : string) (c : ascii) :
  slice (Some 11) (Some (-1)) ("complement(" +:+ e +:+ String c "") = e.
Proof.
  unfold slice, slice_index.
  change (11 <? 0) with false. change (-1 <? 0) with true. cbv iota.
  rewrite !length_app_str.
  change (String.length "complement(") with 11%nat.
  change (String.length (String c "")) with 1%nat.
  change (Z.to_nat 11) with 11%nat.
  replace (Nat.min 11 (11 + (String.length e + 1))) with 11%nat by lia.
  replace (Z.to_nat (0 `max` (-1 + Z.of_nat (11 + (String.length e + 1)))) - 11)%nat
    with (String.length e) by lia.
  change 11%nat with (String.length "complement(") at 1.
  rewrite str_drop_length. apply str_take_length.
Qed.

(** The character that closes the wrapper is not looked at: whatever the
    last character is, it is dropped and the rest is resolved as if the
    wrapper were closed by a parenthesis. *)
Theorem closing_character_unchecked (e : string) (c : ascii) :
  parse_location ("complement(" +:+ e +:+ String c "")
  = parse_location ("complement(" +:+ e +:+ ")").
Proof.
  rewrite !parse_location_body. unfold strand_of, location_body.
  rewrite !startswith_app, slice_unwrap_any, slice_unwrap. reflexivity.
Qed.

Lemma split_pair_inv (body x y : string) :
  split ".." body = [x; y] ->
  body = x +:+ ".." +:+ y /\ contains ".." x = false /\ contains ".." y = false.
Proof.
  intros H. pose proof (join_split "." "." body) as Hj.
  pose proof (split_pieces_free "." "." body) as Hf.
  rewrite H in Hj, Hf. split; [symmetry; exact Hj|].
  apply List.Forall_cons_iff in Hf as [Hx Hf].
  apply List.Forall_cons_iff in Hf as [Hy _]. split; assumption.
Qed.

(** In the range branch an answer other than the fallback is a genuine
    reading: the body is [x..y], neither side holds another [..], and the
    two integers are what [int] reads on each side once the markers are
    removed. *)
Theorem range_answer_sound (location_str : string) (a b : Z) (st : string) :
  startswith (location_body location_str) "join(" = false ->
  contains ".." (location_body location_str) = true ->
  parse_location location_str = Ok (a, b, st) ->
  (a = 1 /\ b = 1)
  \/ exists x y,
       location_body location_str = x +:+ ".." +:+ y
       /\ contains ".." x = false /\ contains ".." y = false
       /\ py_int (re_sub_fuzzy x) = Ok a /\ py_int (re_sub_fuzzy y) = Ok b.
Proof.
  intros Hj Hc. rewrite parse_location_body. unfold parse_body.
  rewrite Hj, Hc.
  destruct (split ".." (location_body location_str)) as [|x [|y [|z l]]] eqn:Hs;
    cbn [unpack2 bind try_except_ValueError];
    try (intros H; injection H as <- <- _; left; split; reflexivity).
  cbn [fst snd].
  destruct (py_int (re_sub_fuzzy x)) as [vx|e1] eqn:Ex; cbn [bind].
  2:{ rewrite (py_int_raises _ _ Ex). cbn [try_except_ValueError].
      intros H; injection H as <- <- _; left; split; reflexivity. }
  destruct (py_int (re_sub_fuzzy y)) as [vy|e2] eqn:Ey; cbn [bind].
  2:{ rewrite (py_int_raises _ _ Ey). cbn [try_except_ValueError].
      intros H; injection H as <- <- _; left; split; reflexivity. }
  cbn [try_except_ValueError]. intros H. injection H as <- <- _.
  right. exists x, y. destruct (split_pair_inv _ _ _ Hs) as (Hb & Hx & Hy).
  repeat split; assumption.
Qed.

Lemma range_answer_sound_witness :
  (300 = 1 /\ 150 = 1)
  \/ exists x y,
       "300..>150" = x +:+ ".." +:+ y
       /\ contains ".." x = false /\ contains ".." y = false
       /\ py_int (re_sub_fuzzy x) = Ok 300 /\ py_int (re_sub_fuzzy y) = Ok 150.
Proof.
  exact (range_answer_sound "complement(300..>150)" 300 150 "-"
           eq_refl eq_refl eq_refl).
Defined.

Lemma decimal_from_nonneg (s : string) (acc : Z) :
  all_chars is_decimal s = true -> 0 <= acc -> 0 <= decimal_from acc s.
Proof.
  revert acc. induction s as [|c s IH]; intros acc Hs Hacc; [exact Hacc|].
  simpl in Hs. apply andb_true_iff in Hs as [Hc Hs]. simpl. apply IH; [exact Hs|].
  assert (0 <= digit_value c).
  { unfold is_decimal, between in Hc. apply andb_true_iff in Hc as [Hlo _].
    apply Nat.leb_le in Hlo. unfold digit_value. lia. }
  lia.
Qed.

Lemma decimal_value_nonneg (s : string) :
  is_number s = true -> 0 <= decimal_value s.
Proof.
  intros H. apply decimal_from_nonneg; [apply is_number_all, H | lia].
Qed.

Lemma span_prefix (p : ascii -> bool) (b rest : string) :
  all_chars p b = true ->
  span p (b +:+ rest) = (b +:+ fst (span p rest), snd (span p rest)).
Proof.
  intros Hb. induction b as [|c b IH].
  - rewrite !app_nil_l_str. destruct (span p rest); reflexivity.
  - simpl in Hb. apply andb_true_iff in Hb as [Hc Hb].
    rewrite app_cons_str. cbn [span]. rewrite Hc, (IH Hb). reflexivity.
Qed.

(** Where a pair occurs, the pattern matches. *)
Lemma range_match_here_occurs (a b rest : string) :
  is_number a = true -> is_number b = true ->
  exists b', range_match_here (a +:+ ".." +:+ b +:+ rest) = Some (a, b').
Proof.
  intros Ha Hb. unfold range_match_here.
  rewrite (span_exact is_decimal a (".." +:+ b +:+ rest));
    [|apply is_number_all, Ha | reflexivity].
  destruct a as [|c a]; [discriminate|].
  change (".." +:+ b +:+ rest) with (String "." (String "." (b +:+ rest))).
  cbv iota beta.
  rewrite (span_prefix is_decimal b rest) by (apply is_number_all, Hb).
  destruct b as [|d b]; [discriminate|]. rewrite app_cons_str. eauto.
Qed.

Lemma re_search_range_complete (s pre a b rest : string) :
  range_occurs s pre a b rest -> re_search_range s <> None.
Proof.
  intros (-> & Ha & Hb). induction pre as [|c pre IH].
  - rewrite app_nil_l_str, re_search_range_unfold.
    destruct (range_match_here_occurs a b rest Ha Hb) as [b' ->]. discriminate.
  - rewrite app_cons_str, re_search_range_unfold.
    destruct (range_match_here _); [discriminate | exact IH].
Qed.

(** In the join branch the two integers are never negative; they are the
    numbers of a pair [digits..digits] that occurs in the body, or the
    fallback 1 and 1 when the body holds no such pair. *)
Theorem join_answer_sound (location_str : string) (a b : Z) (st : string) :
  startswith (location_body location_str) "join(" = true ->
  parse_location location_str = Ok (a, b, st) ->
  0 <= a /\ 0 <= b
  /\ ((a = 1 /\ b = 1 /\ no_range (location_body location_str))
      \/ exists pre da db rest,
           range_occurs (location_body location_str) pre da db rest
           /\ a = decimal_value da /\ b = decimal_value db).
Proof.
  intros Hj. rewrite parse_location_body. unfold parse_body. rewrite Hj.
  destruct (re_search_range (location_body location_str)) as [[g1 g2]|] eqn:E.
  - destruct (re_search_range_numbers _ _ _ E) as [H1 H2].
    destruct (re_search_range_inv _ _ _ E) as (pre & rest & Ho).
    rewrite (py_int_number _ H1), (py_int_number _ H2). cbn [bind].
    intros H. injection H as <- <- _.
    split; [apply decimal_value_nonneg, H1|].
    split; [apply decimal_value_nonneg, H2|].
    right. exists pre, g1, g2, rest.
    split; [exact Ho|]. split; reflexivity.
  - intros H. injection H as <- <- _.
    split; [lia|]. split; [lia|]. left. split; [reflexivity|]. split; [reflexivity|].
    intros pre da db rest Ho. exact (re_search_range_complete _ _ _ _ _ Ho E).
Qed.

Lemma join_answer_sound_witness :
  0 <= 12 /\ 0 <= 34
  /\ ((12 = 1 /\ 34 = 1 /\ no_range "join(12..34,56..78)")
      \/ exists pre da db rest,
           range_occurs "join(12..34,56..78)" pre da db rest
           /\ 12 = decimal_value da /\ 34 = decimal_value db).
Proof.
  exact (join_answer_sound "join(12..34,56..78)" 12 34 "+" eq_refl eq_refl).
Defined.




(** ** The qualifier extractor *)

Lemma contains_cons_char (a c : ascii) (s : string) :
  contains (String a "") (String c s) = Ascii.eqb a c || contains (String a "") s.
Proof.
  rewrite contains_unfold, startswith_cons. cbn [startswith].
  rewrite andb_true_r. reflexivity.
Qed.

Lemma split1_key_value (k v : string) :
  contains "=" k = false -> split1 "=" (k +:+ "=" +:+ v) = [k; v].
Proof.
  induction k as [|c k IH]; intros H.
  - rewrite app_nil_l_str, split1_unfold. reflexivity.
  - rewrite contains_cons_char in H. apply orb_false_iff in H as [Hc Hk].
    rewrite app_cons_str, split1_unfold, startswith_cons, Hc. cbn [andb].
    rewrite (IH Hk). reflexivity.
Qed.

(** The step on a line [/k=v]. *)
Lemma extract_step_key_value (st : extract_state) (l k v : string) :
  strip l = "/" +:+ k +:+ "=" +:+ v -> contains "=" k = false ->
  extract_step st l = Ok (mk_extract_state (flush st) (Some k) v).
Proof.
  intros Hl Hk. unfold extract_step. rewrite Hl.
  change ("/" +:+ k +:+ "=" +:+ v) with (String "/" (k +:+ "=" +:+ v)).
  rewrite slice_tail. change (startswith (String "/" (k +:+ "=" +:+ v)) "/") with true.
  cbv iota. rewrite contains_cons_char, contains_app, orb_true_r.
  rewrite (split1_key_value _ _ Hk). reflexivity.
Qed.

(** The step on a line [/k] without an equals sign. *)
Lemma extract_step_flag (st : extract_state) (l k : string) :
  strip l = "/" +:+ k -> contains "=" k = false ->
  extract_step st l = Ok (mk_extract_state (flush st) (Some k) "").
Proof.
  intros Hl Hk. unfold extract_step. rewrite Hl.
  change ("/" +:+ k) with (String "/" k).
  rewrite slice_tail. change (startswith (String "/" k) "/") with true.
  cbv iota. rewrite contains_cons_char, Hk. reflexivity.
Qed.

Lemma extract_loop_continuations (cs : list string) (a : gmap string string)
  (q : option string) (v : string) :
  Forall (fun c => is_continuation c = true) cs ->
  extract_loop (mk_extract_state a q v) cs
  = Ok (mk_extract_state a q (continuation_value v cs)).
Proof.
  intros H. revert v. induction H as [|c cs Hc _ IH]; intros v; [reflexivity|].
  cbn [extract_loop]. unfold is_continuation in Hc.
  apply negb_true_iff in Hc. rewrite (extract_step_continuation _ _ Hc).
  cbn [bind attributes_of current_qualifier current_value]. rewrite IH. reflexivity.
Qed.

Lemma extract_attributes_append (lines rest : list string) (m : gmap string string) :
  extract_attributes lines = Ok m ->
  exists st, extract_loop initial_extract_state lines = Ok st /\ flush st = m
             /\ extract_attributes (lines ++ rest)
                = (do st' <- extract_loop st rest; Ok (flush st')).
Proof.
  unfold extract_attributes. rewrite extract_loop_app.
  destruct (extract_loop initial_extract_state lines) as [st|e]; [|discriminate].
  cbn [bind]. intros H. injection H as <-. exists st. auto.
Qed.

(** Appending a qualifier [/k=v] and its continuation lines to any lines
    stores, on top of the map of those lines, the key [k] with the value
    [v] followed by one space and the trimmed text of each continuation
    line, outer quotes removed.  An earlier value of [k] is overwritten. *)
Theorem qualifier_appended (lines cs : list string) (l k v : string)
  (m : gmap string string) :
  extract_attributes lines = Ok m ->
  strip l = "/" +:+ k +:+ "=" +:+ v -> k <> "" -> contains "=" k = false ->
  Forall (fun c => is_continuation c = true) cs ->
  extract_attributes (lines ++ l :: cs)
  = Ok (<[k := strip_chars is_quote (continuation_value v cs)]> m).
Proof.
  intros Hm Hl Hne Hk Hcs.
  destruct (extract_attributes_append lines (l :: cs) m Hm) as (st & _ & Hf & ->).
  cbn [extract_loop]. rewrite (extract_step_key_value st l k v Hl Hk). cbn [bind].
  rewrite (extract_loop_continuations cs _ _ _ Hcs). cbn [bind].
  rewrite (flush_pending
             (mk_extract_state (flush st) (Some k) (continuation_value v cs))
             k eq_refl Hne).
  cbn [attributes_of current_value]. rewrite Hf. reflexivity.
Qed.

Lemma qualifier_appended_witness :
  extract_attributes
    (["   /gene=old"]
       ++ ("   /gene=" +:+ DQUOTE +:+ "new") :: ["   name" +:+ DQUOTE])
  = Ok {[ "gene" := "new name" ]}.
Proof.
  rewrite (qualifier_appended ["   /gene=old"] ["   name" +:+ DQUOTE]
             ("   /gene=" +:+ DQUOTE +:+ "new") "gene" (DQUOTE +:+ "new")
             {[ "gene" := "old" ]}).
  - vm_compute. reflexivity.
  - vm_compute. reflexivity.
  - vm_compute. reflexivity.
  - discriminate.
  - reflexivity.
  - repeat constructor.
Defined.

(** Appending a qualifier [/k] without an equals sign stores the key [k];
    its value is empty when no continuation line follows, and otherwise the
    continuation text, which starts with the space that joins it. *)
Theorem flag_appended (lines cs : list string) (l k : string)
  (m : gmap string string) :
  extract_attributes lines = Ok m ->
  strip l = "/" +:+ k -> k <> "" -> contains "=" k = false ->
  Forall (fun c => is_continuation c = true) cs ->
  extract_attributes (lines ++ l :: cs)
  = Ok (<[k := strip_chars is_quote (continuation_value "" cs)]> m).
Proof.
  intros Hm Hl Hne Hk Hcs.
  destruct (extract_attributes_append lines (l :: cs) m Hm) as (st & _ & Hf & ->).
  cbn [extract_loop]. rewrite (extract_step_flag st l k Hl Hk). cbn [bind].
  rewrite (extract_loop_continuations cs _ _ _ Hcs). cbn [bind].
  rewrite (flush_pending
             (mk_extract_state (flush st) (Some k) (continuation_value "" cs))
             k eq_refl Hne).
  cbn [attributes_of current_value]. rewrite Hf. reflexivity.
Qed.

Lemma flag_appended_witness :
  extract_attributes ([] ++ "                     /pseudo" :: [])
  = Ok (<[ "pseudo" := "" ]> ∅).
Proof.
  apply (flag_appended [] [] "                     /pseudo" "pseudo" ∅).
  - reflexivity.
  - vm_compute. reflexivity.
  - discriminate.
  - reflexivity.
  - constructor.
Defined.

Lemma split1_head_free (s : string) :
  match split1 "=" s with
  | h :: _ => contains "=" h = false
  | [] => True
  end.
Proof.
  induction s as [|c s IH]; [reflexivity|].
  rewrite split1_unfold, startswith_cons. cbn [startswith]. rewrite andb_true_r.
  destruct (Ascii.eqb "=" c) eqn:Hc; [reflexivity|].
  destruct (split1 "=" s) as [|h t]; rewrite contains_cons_char, Hc; [reflexivity|].
  exact IH.
Qed.

Lemma key_of_line_no_equals (t : string) :
  startswith t "/" = true -> contains "=" (key_of_line t) = false.
Proof.
  intros H. destruct (startswith_inv _ _ H) as [r ->].
  change ("/" +:+ r) with (String "/" r). unfold key_of_line. rewrite slice_tail.
  rewrite contains_cons_char. change (Ascii.eqb "=" "/") with false. cbn [orb].
  destruct (contains "=" r) eqn:Hc; [|exact Hc].
  pose proof (split1_head_free r) as Hh.
  destruct (split1 "=" r); [reflexivity | exact Hh].
Qed.

Lemma flush_well_stored (st : extract_state) :
  entries_well_stored st ->
  forall k v, flush st !! k = Some v -> well_stored k v.
Proof.
  intros [Hattrs Hq] k v. unfold flush.
  destruct (current_qualifier st) as [q|]; [|apply Hattrs].
  destruct (truthy (Some q)) eqn:Ht; [|apply Hattrs].
  destruct (decide (q = k)) as [->|Hne].
  - rewrite lookup_insert_eq. intros H. injection H as <-.
    destruct (strip_chars_spec is_quote (current_value st))
      as (l & r & _ & _ & _ & Hfirst & Hlast).
    split; [destruct k; [discriminate Ht | discriminate]|].
    split; [apply Hq; reflexivity|]. split; assumption.
  - rewrite lookup_insert_ne by exact Hne. apply Hattrs.
Qed.

Lemma extract_step_well_stored (st st' : extract_state) (l : string) :
  entries_well_stored st -> extract_step st l = Ok st' -> entries_well_stored st'.
Proof.
  intros Hinv Hstep. destruct (startswith (strip l) "/") eqn:Hl.
  - destruct (extract_step_qualifier st l Hl) as [v Hv].
    rewrite Hv in Hstep. injection Hstep as <-. split; cbn.
    + exact (flush_well_stored st Hinv).
    + intros q Hq. injection Hq as <-. apply key_of_line_no_equals, Hl.
  - rewrite (extract_step_continuation st l Hl) in Hstep. injection Hstep as <-.
    exact Hinv.
Qed.

Lemma extract_loop_well_stored (lines : list string) (st st' : extract_state) :
  entries_well_stored st -> extract_loop st lines = Ok st' -> entries_well_stored st'.
Proof.
  revert st. induction lines as [|l lines IH]; intros st Hinv Hloop.
  - injection Hloop as <-. exact Hinv.
  - cbn [extract_loop] in Hloop.
    destruct (extract_step st l) as [st1|e] eqn:Hstep; [|discriminate].
    exact (IH st1 (extract_step_well_stored _ _ _ Hinv Hstep) Hloop).
Qed.

(** Every entry of an extracted map has a key that is not empty and holds
    no equals sign, and a value that neither starts nor ends with a double
    quote. *)
Theorem stored_entries_wellformed (lines : list string) (m : gmap string string)
  (k v : string) :
  extract_attributes lines = Ok m -> m !! k = Some v ->
  k <> "" /\ contains "=" k = false
  /\ first_char_in is_quote v = false /\ last_char_in is_quote v = false.
Proof.
  unfold extract_attributes.
  destruct (extract_loop initial_extract_state lines) as [st|e] eqn:Hloop;
    [|discriminate].
  cbn [bind]. intros H. injection H as <-.
  apply flush_well_stored. apply (extract_loop_well_stored lines initial_extract_state).
  - split; cbn.
    + intros k0 v0 H0. rewrite lookup_empty in H0. discriminate.
    + discriminate.
  - exact Hloop.
Qed.

Lemma stored_entries_wellformed_witness :
  "note" <> "" /\ contains "=" "note" = false
  /\ first_char_in is_quote "a=b" = false /\ last_char_in is_quote "a=b" = false.
Proof.
  apply (stored_entries_wellformed
           ["  /=lost"; "  /note=" +:+ DQUOTE +:+ DQUOTE +:+ "a=b" +:+ DQUOTE]
           {[ "note" := "a=b" ]}).
  - vm_compute. reflexivity.
  - vm_compute. reflexivity.
Defined.

Lemma strip_idempotent (s : string) : strip (strip s) = strip s.
Proof.
  unfold strip.
  destruct (strip_chars_spec is_space s) as (l & r & _ & _ & _ & Hfirst & Hlast).
  unfold strip_chars at 1.
  rewrite (lstrip_none _ _ Hfirst). apply rstrip_none, Hlast.
Qed.

Lemma extract_step_trimmed (st : extract_state) (l : string) :
  extract_step st (strip l) = extract_step st l.
Proof. unfold extract_step. rewrite strip_idempotent. reflexivity. Qed.

(** Only the trimmed text of each line counts: the indentation of the
    qualifier lines and the blanks after them change nothing. *)
Theorem indentation_irrelevant (lines : list string) :
  extract_attributes (map strip lines) = extract_attributes lines.
Proof.
  unfold extract_attributes. f_equal.
  generalize initial_extract_state.
  induction lines as [|l lines IH]; intros st; [reflexivity|].
  cbn [map extract_loop]. rewrite extract_step_trimmed.
  destruct (extract_step st l) as [st1|e]; [|reflexivity].
  cbn [bind]. apply IH.
Qed.

(** ** The attribute formatter *)

Lemma escape_char_clean (c : ascii) : all_chars not_reserved (escape_char c) = true.
Proof. destruct c as [[] [] [] [] [] [] [] []]; reflexivity. Qed.

(** An escaped [product] or [note] value holds no semicolon, no equals sign
    and no ampersand. *)
Theorem escaped_value_clean (v : string) :
  all_chars not_reserved (escape_value v) = true.
Proof.
  rewrite escape_value_spec. induction v as [|c v IH]; [reflexivity|].
  cbn [escape_chars]. rewrite all_chars_app, escape_char_clean, IH. reflexivity.
Qed.

Lemma escape_chars_app (x y : string) :
  escape_chars (x +:+ y) = escape_chars x +:+ escape_chars y.
Proof.
  induction x as [|c x IH]; [reflexivity|].
  rewrite app_cons_str. cbn [escape_chars]. rewrite IH, app_assoc_str. reflexivity.
Qed.

(** The percent sign is not escaped, so the escaping cannot be undone: a
    reserved character and its escape sequence written out in the value
    give the same text. *)
Theorem escaping_not_reversible (x y : string) :
  escape_value (x +:+ ";" +:+ y) = escape_value (x +:+ "%3B" +:+ y)
  /\ escape_value (x +:+ "=" +:+ y) = escape_value (x +:+ "%3D" +:+ y)
  /\ escape_value (x +:+ "&" +:+ y) = escape_value (x +:+ "%26" +:+ y).
Proof.
  rewrite !escape_value_spec, !escape_chars_app. repeat split; reflexivity.
Qed.

Ltac too_long H :=
  exfalso; apply (f_equal String.length) in H;
  rewrite ?length_app_str in H; simpl in H; lia.

Lemma format_dot_inv (m : gmap string string) (feature_type : string) :
  format_gff_attributes m feature_type = "." ->
  m !! "locus_tag" = None /\ m !! "gene" = None /\ m !! "product" = None
  /\ m !! "protein_id" = None /\ m !! "translation" = None /\ m !! "note" = None.
Proof.
  unfold format_gff_attributes.
  destruct (m !! "locus_tag"), (m !! "gene"), (m !! "product"),
    (m !! "protein_id"), (m !! "translation"), (m !! "note");
    destruct (String.eqb feature_type "gene");
    cbn [app negb join]; intros H;
    solve [repeat split; reflexivity | too_long H].
Qed.

(** The attribute column is a lone dot exactly when the map holds none of
    the six recognized keys. *)
Theorem dot_exactly_when_unrecognized (m : gmap string string) (feature_type : string) :
  format_gff_attributes m feature_type = "."
  <-> forall k, In k recognized_keys -> m !! k = None.
Proof.
  split; [|apply format_none].
  intros H. destruct (format_dot_inv _ _ H) as (H1 & H2 & H3 & H4 & H5 & H6).
  intros k Hk. simpl in Hk.
  destruct Hk as [<-|[<-|[<-|[<-|[<-|[<-|[]]]]]]]; assumption.
Qed.

Lemma dot_exactly_when_unrecognized_witness :
  format_gff_attributes {[ "organism" := "Escherichia coli" ]} "source" = ".".
Proof.
  apply dot_exactly_when_unrecognized.
  intros k Hk. simpl in Hk.
  destruct Hk as [<-|[<-|[<-|[<-|[<-|[<-|[]]]]]]]; vm_compute; reflexivity.
Defined.

(** ** The feature-table scanner *)

Lemma scan_spec_outside (lines : list string) :
  Forall (fun l => startswith l "FEATURES" = false) lines ->
  scan_spec false lines = [].
Proof.
  intros H. induction H as [|l lines Hl _ IH]; [reflexivity|].
  cbn [scan_spec]. rewrite Hl. destruct (is_stop_line l); [reflexivity | exact IH].
Qed.

(** A record without a line that starts with [FEATURES] yields no feature,
    whatever its lines look like. *)
Theorem no_table_no_features (lines : list string) :
  Forall (fun l => startswith l "FEATURES" = false) lines ->
  scan_features lines = Some ([], None).
Proof.
  intros H. unfold scan_features.
  rewrite scan_record_spec, run_features_id, (scan_spec_outside _ H). reflexivity.
Qed.

Lemma no_table_no_features_witness :
  scan_features ["LOCUS       AB1 9 bp"; "     gene            1..9";
                 "                     /gene=a"]
  = Some ([], None).
Proof. apply no_table_no_features. repeat constructor. Defined.

Lemma take_while_all {A : Type} (p : A -> bool) (l : list A) :
  Forall (fun x => p x = true) (take_while p l).
Proof.
  induction l as [|x l IH]; [constructor|]. cbn [take_while].
  destruct (p x) eqn:Hx; constructor; assumption.
Qed.

Lemma scan_spec_features (lines : list string) (in_features : bool)
  (ty loc : string) (qs : list string) :
  In (ty, loc, qs) (scan_spec in_features lines) ->
  run_of is_word ty = true /\ run_of not_newline loc = true
  /\ Forall (fun q => is_qualifier_line q = true) qs
  /\ exists line, In line lines /\ feature_match line = Some (ty, loc).
Proof.
  revert in_features. induction lines as [|l lines IH]; intros in_features; [intros []|].
  assert (Hrest : forall f, In (ty, loc, qs) (scan_spec f lines) ->
                  run_of is_word ty = true /\ run_of not_newline loc = true
                  /\ Forall (fun q => is_qualifier_line q = true) qs
                  /\ exists line, In line (l :: lines)
                                  /\ feature_match line = Some (ty, loc)).
  { intros f Hin. destruct (IH f Hin) as (H1 & H2 & H3 & line & Hl & Hm).
    repeat split; try assumption. exists line. split; [right|]; assumption. }
  cbn [scan_spec]. destruct (startswith l "FEATURES"); [apply Hrest|].
  destruct (is_stop_line l); [intros []|].
  destruct in_features; [|apply Hrest].
  destruct (feature_match l) as [[ty' loc']|] eqn:Em; [|apply Hrest].
  intros [Heq|Hin]; [|exact (Hrest _ Hin)].
  injection Heq as -> -> <-.
  destruct (feature_match_inv _ _ _ Em) as (ws & tail & _ & Hty & _ & Hloc).
  split; [exact Hty|]. split; [exact Hloc|]. split; [apply take_while_all|].
  exists l. split; [left; reflexivity | exact Em].
Qed.

(** Every scanned feature has a type made of word characters only, a
    location that is not empty and holds no newline, and qualifier lines
    that all pass the qualifier-line test; it comes from a line of the
    record that the header pattern matches. *)
Theorem scanned_features_wellformed (lines : list string) (fs : list feature)
  (e : option exn) (ty loc : string) (qs : list string) :
  scan_features lines = Some (fs, e) -> In (ty, loc, qs) fs ->
  run_of is_word ty = true /\ run_of not_newline loc = true
  /\ Forall (fun q => is_qualifier_line q = true) qs
  /\ exists line, In line lines /\ feature_match line = Some (ty, loc).
Proof.
  unfold scan_features. rewrite scan_record_spec, run_features_id.
  intros H. injection H as <- <-. apply scan_spec_features.
Qed.

Lemma scanned_features_wellformed_witness :
  run_of is_word "CDS" = true /\ run_of not_newline "complement(300..150)" = true
  /\ Forall (fun q => is_qualifier_line q = true) ["                     /codon_start=1"]
  /\ exists line,
       In line ["FEATURES             Location/Qualifiers";
                "     CDS             complement(300..150)";
                "                     /codon_start=1"; "ORIGIN"]
       /\ feature_match line = Some ("CDS", "complement(300..150)").
Proof.
  apply (scanned_features_wellformed _
           [("CDS", "complement(300..150)", ["                     /codon_start=1"])]
           None).
  - vm_compute. reflexivity.
  - left. reflexivity.
Defined.

Lemma scan_spec_skip_qualifiers (in_features : bool) (qs post : list string) :
  Forall (fun q => is_qualifier_line q = true) qs ->
  scan_spec in_features (qs ++ post) = scan_spec in_features post.
Proof.
  intros H. induction H as [|q qs Hq _ IH]; [reflexivity|].
  cbn [app]. rewrite (scan_spec_qualifier _ _ _ Hq). exact IH.
Qed.

Lemma scan_spec_rejected_header (in_features : bool)
  (pre qs post : list string) (h : string) :
  feature_match h = None -> is_qualifier_line h = false ->
  Forall (fun q => is_qualifier_line q = true) qs ->
  scan_spec in_features (pre ++ h :: qs ++ post)
  = scan_spec in_features (pre ++ h :: post).
Proof.
  intros Hm Hq Hqs. revert in_features.
  induction pre as [|x pre IH]; intros in_features.
  - cbn [app scan_spec]. rewrite Hm.
    rewrite !(scan_spec_skip_qualifiers _ _ _ Hqs). reflexivity.
  - cbn [app scan_spec].
    rewrite !IH, !(take_while_stop _ _ _ _ Hq). reflexivity.
Qed.

(** The qualifier lines under a line that the header pattern rejects (a key
    such as [3'UTR] or [-10_signal]) are dropped with it: they are not
    added to the feature before it, and the scan gives what it gives
    without them. *)
Theorem rejected_header_qualifiers_dropped (pre qs post : list string) (h : string) :
  feature_match h = None -> is_qualifier_line h = false ->
  Forall (fun q => is_qualifier_line q = true) qs ->
  scan_features (pre ++ h :: qs ++ post) = scan_features (pre ++ h :: post).
Proof.
  intros Hm Hq Hqs. unfold scan_features.
  rewrite !scan_record_spec, (scan_spec_rejected_header _ _ _ _ _ Hm Hq Hqs).
  reflexivity.
Qed.

Lemma rejected_header_qualifiers_dropped_witness :
  scan_features (["FEATURES"; "     gene            1..9"]
                   ++ "     3'UTR           5..9"
                   :: ["                     /note=x"]
                   ++ ["     CDS             2..4"])
  = scan_features (["FEATURES"; "     gene            1..9"]
                     ++ "     3'UTR           5..9" :: ["     CDS             2..4"]).
Proof.
  apply rejected_header_qualifiers_dropped.
  - reflexivity.
  - reflexivity.
  - repeat constructor.
Defined.

(** ** Records and output *)

Lemma split_without_first (a : ascii) (sep s : string) :
  all_chars (fun c => negb (Ascii.eqb a c)) s = true ->
  split (String a sep) s = [s].
Proof.
  induction s as [|c s IH]; intros H; [reflexivity|].
  cbn [all_chars] in H. apply andb_true_iff in H as [Hc Hs].
  rewrite split_next, (IH Hs); [reflexivity|].
  rewrite startswith_cons. apply negb_true_iff in Hc. rewrite Hc. reflexivity.
Qed.

Lemma space_not_slash (c : ascii) : is_space c = true -> negb (Ascii.eqb "/" c) = true.
Proof. destruct c as [[] [] [] [] [] [] [] []]; vm_compute; congruence. Qed.

(** A text made of white space only, the empty text included, gives the
    version line and nothing else. *)
Theorem blank_input (content : string) :
  all_chars is_space content = true ->
  parse_gbff_file content = Some (["##gff-version 3" +:+ NL], None).
Proof.
  intros H. unfold parse_gbff_file.
  change RECORD_SEP with (String "/" (String "/" NL)).
  rewrite split_without_first
    by (apply (all_chars_impl is_space); [exact space_not_slash | exact H]).
  cbn [records_loop]. unfold is_blank, strip.
  rewrite (all_chars_strip_empty _ _ H). reflexivity.
Qed.

Lemma blank_input_witness :
  parse_gbff_file (NL +:+ "  " +:+ NL) = Some (["##gff-version 3" +:+ NL], None).
Proof. apply blank_input. reflexivity. Defined.

Lemma startswith_before_separator (c : ascii) (a b : string) :
  startswith (String c a +:+ RECORD_SEP +:+ b) RECORD_SEP
  = startswith (String c a) RECORD_SEP.
Proof.
  change RECORD_SEP with (String "/" (String "/" (String (ascii_of_nat 10) ""))).
  destruct a as [|c2 [|c3 r]]; rewrite ?app_cons_str, ?app_nil_l_str, !startswith_cons;
    cbn [startswith].
  - change (Ascii.eqb (ascii_of_nat 10) "/") with false.
    rewrite !andb_false_r. reflexivity.
  - change (Ascii.eqb (ascii_of_nat 10) "/") with false.
    rewrite !andb_false_r. reflexivity.
  - reflexivity.
Qed.

(** Cutting a text that was put together with the separator cuts each part
    as it would be cut alone. *)
Lemma split_app_separator (a b : string) :
  split RECORD_SEP (a +:+ RECORD_SEP +:+ b)
  = split RECORD_SEP a ++ split RECORD_SEP b.
Proof.
  remember (String.length a) as n eqn:Hn.
  revert a Hn. induction n as [n IH] using lt_wf_ind. intros a Hn.
  destruct a as [|c a].
  - rewrite app_nil_l_str. change RECORD_SEP with (String "/" (String "/" NL)).
    rewrite split_here. reflexivity.
  - change RECORD_SEP with (String "/" (String "/" NL)) at 1 3.
    rewrite (split_unfold "/" (String "/" NL) (String c a +:+ RECORD_SEP +:+ b)).
    rewrite (split_unfold "/" (String "/" NL) (String c a)).
    change (String "/" (String "/" NL)) with RECORD_SEP.
    rewrite startswith_before_separator.
    destruct (startswith (String c a) RECORD_SEP) eqn:Hs.
    + destruct (startswith_inv _ _ Hs) as [t Ht]. rewrite Ht.
      rewrite app_assoc_str, !str_drop_length.
      rewrite (IH (String.length t)); [reflexivity | | reflexivity].
      subst n. rewrite Ht, length_app_str. simpl. lia.
    + rewrite app_cons_str.
      rewrite (IH (String.length a)); [|subst n; simpl; lia | reflexivity].
      destruct (split RECORD_SEP a) as [|h t] eqn:E.
      * destruct (split_not_nil _ _ E).
      * reflexivity.
Qed.

Lemma writes_then_nil {A : Type} (t : option (trace A)) : writes_then [] t = t.
Proof. destruct t as [[l e]|]; reflexivity. Qed.

Lemma writes_then_app {A : Type} (w1 w2 : list A) (t : option (trace A)) :
  writes_then w1 (writes_then w2 t) = writes_then (w1 ++ w2) t.
Proof. destruct t as [[l e]|]; [|reflexivity]. cbn. rewrite app_assoc. reflexivity. Qed.

Lemma records_loop_app (x y : list string) :
  records_loop (x ++ y)
  = match records_loop x with
    | Some (w, None) => writes_then w (records_loop y)
    | other => other
    end.
Proof.
  induction x as [|r x IH].
  - cbn [app records_loop]. rewrite writes_then_nil. reflexivity.
  - cbn [app records_loop]. destruct (is_blank r); [exact IH|].
    destruct (process_record r) as [[w [e|]]|]; try reflexivity.
    rewrite IH. destruct (records_loop x) as [[w2 [e2|]]|]; try reflexivity.
    cbn [writes_then]. apply writes_then_app.
Qed.

(** Two texts put together with a terminator are converted one after the
    other, and the first has no influence on the second: when the first is
    converted without an exception, the output is its output followed by
    the output of the second without a second version line; when it raises,
    the conversion stops there with what it had written. *)
Theorem records_independent (a b : string) :
  (forall wa : list string,
      parse_gbff_file a = Some (("##gff-version 3" +:+ NL) :: wa, None) ->
      exists wb e,
        parse_gbff_file b = Some (("##gff-version 3" +:+ NL) :: wb, e)
        /\ parse_gbff_file (a +:+ RECORD_SEP +:+ b)
           = Some (("##gff-version 3" +:+ NL) :: wa ++ wb, e))
  /\ (forall (w : list string) (e : exn),
         parse_gbff_file a = Some (w, Some e) ->
         parse_gbff_file (a +:+ RECORD_SEP +:+ b) = Some (w, Some e)).
Proof.
  unfold parse_gbff_file. rewrite split_app_separator, records_loop_app.
  split.
  - intros wa Ha.
    destruct (records_loop (split RECORD_SEP a)) as [[w [e|]]|]; try discriminate.
    cbn in Ha. injection Ha as ->.
    destruct (records_loop_total (split RECORD_SEP b)) as (wb & e & ->).
    exists wb, e. split; reflexivity.
  - intros w e Ha.
    destruct (records_loop (split RECORD_SEP a)) as [[w1 [e1|]]|]; try discriminate.
    exact Ha.
Qed.

Lemma records_independent_witness :
  exists wb e,
    parse_gbff_file example_record = Some (("##gff-version 3" +:+ NL) :: wb, e)
    /\ parse_gbff_file (("LOCUS       X1 7 bp" +:+ NL) +:+ RECORD_SEP +:+ example_record)
       = Some (("##gff-version 3" +:+ NL)
                 :: ["##sequence-region X1 1 7" +:+ NL] ++ wb, e).
Proof.
  destruct (records_independent ("LOCUS       X1 7 bp" +:+ NL) example_record)
    as [Hok _].
  apply Hok. vm_compute. reflexivity.
Defined.







Lemma split_ws_no_space (s : string) :
  Forall (fun t => all_chars not_space t = true) (split_ws s).
Proof.
  induction s as [|c s IH]; [constructor|]. cbn [split_ws].
  destruct (is_space c) eqn:Hc; [exact IH|].
  assert (Hn : not_space c = true) by (unfold not_space; rewrite Hc; reflexivity).
  destruct s as [|d s'].
  - repeat constructor. cbn. rewrite Hn. reflexivity.
  - destruct (is_space d).
    + constructor; [cbn; rewrite Hn; reflexivity | exact IH].
    + destruct (split_ws (String d s')) as [|h t].
      * repeat constructor. cbn. rewrite Hn. reflexivity.
      * apply List.Forall_cons_iff in IH as [Hh Ht].
        constructor; [cbn [all_chars]; rewrite Hn, Hh; reflexivity | exact Ht].
Qed.

Lemma index_in {A : Type} (l : list A) (i : nat) (a : A) :
  index l i = Ok a -> In a l.
Proof.
  unfold index. destruct (l !! i) as [x|] eqn:E; [|discriminate].
  intros H. injection H as <-. apply list_elem_of_In.
  apply list_elem_of_lookup. eauto.
Qed.

Lemma header_step_token (st st' : option string * option string) (l : string) :
  (forall s, fst st = Some s -> s <> "" /\ all_chars not_space s = true) ->
  header_step st l = Ok st' ->
  forall s, fst st' = Some s -> s <> "" /\ all_chars not_space s = true.
Proof.
  intros Hinv. unfold header_step. destruct st as [sid len].
  assert (Htok : forall i p, index (split_ws l) i = Ok p ->
                 p <> "" /\ all_chars not_space p = true).
  { intros i p Hp. apply index_in in Hp. split.
    - exact (proj1 (List.Forall_forall _ _) (split_ws_tokens l) _ Hp).
    - exact (proj1 (List.Forall_forall _ _) (split_ws_no_space l) _ Hp). }
  destruct (startswith l "LOCUS").
  - destruct (3 <=? length (split_ws l))%nat.
    + destruct (index (split_ws l) 1) as [p1|] eqn:H1; [|discriminate]. cbn [bind].
      destruct (index (split_ws l) 2) as [p2|]; [|discriminate]. cbn [bind].
      intros H. injection H as <-. cbn [fst]. intros s Hs. injection Hs as <-.
      exact (Htok _ _ H1).
    + intros H. injection H as <-. exact Hinv.
  - destruct (startswith l "ACCESSION"); [|intros H; injection H as <-; exact Hinv].
    destruct (negb (truthy sid)); [|intros H; injection H as <-; exact Hinv].
    destruct (index (split_ws l) 1) as [p1|] eqn:H1; [|discriminate]. cbn [bind].
    intros H. injection H as <-. cbn [fst]. intros s Hs. injection Hs as <-.
    exact (Htok _ _ H1).
Qed.

Lemma header_loop_token (lines : list string) (st st' : option string * option string) :
  (forall s, fst st = Some s -> s <> "" /\ all_chars not_space s = true) ->
  header_loop st lines = Ok st' ->
  forall s, fst st' = Some s -> s <> "" /\ all_chars not_space s = true.
Proof.
  revert st. induction lines as [|l lines IH]; intros st Hinv Hloop.
  - injection Hloop as <-. exact Hinv.
  - cbn [header_loop] in Hloop.
    destruct (header_step st l) as [st1|e] eqn:Hstep; [|discriminate].
    exact (IH st1 (header_step_token _ _ _ Hinv Hstep) Hloop).
Qed.

(** The seqid of a record is never empty and holds no white space, so no
    tab either: it is a token of a header line or the word [unknown]. *)
Theorem seqid_is_token (lines : list string) (s : string) :
  record_seqid lines = Ok s -> s <> "" /\ all_chars not_space s = true.
Proof.
  unfold record_seqid.
  destruct (header_loop (None, None) lines) as [[sid len]|e] eqn:Hloop; [|discriminate].
  cbn [bind fst]. intros H. injection H as <-.
  assert (Hinv : forall s, fst (sid, len) = Some s ->
                 s <> "" /\ all_chars not_space s = true).
  { apply (header_loop_token lines (None, None)); [discriminate | exact Hloop]. }
  destruct sid as [s|]; [|split; [discriminate | reflexivity]].
  destruct (Hinv s eq_refl) as [Hne Hs].
  rewrite (seqid_or_unknown_set _ (truthy_nonempty _ Hne)). split; assumption.
Qed.

Lemma seqid_is_token_witness :
  "NC_000913.3" <> "" /\ all_chars not_space "NC_000913.3" = true.
Proof.
  apply (seqid_is_token ["LOCUS       NC_000913.3 4641652 bp    DNA"; "ACCESSION   U00096"]).
  vm_compute. reflexivity.
Defined.

Lemma not_tab_start (c : ascii) (x : string) :
  not_tab c = true -> startswith (String c x) TAB = false.
Proof.
  intros Hc. unfold TAB. rewrite startswith_cons. unfold not_tab in Hc.
  rewrite Ascii.eqb_sym. apply negb_true_iff in Hc. rewrite Hc. reflexivity.
Qed.

Lemma split_tab_none (x : string) :
  all_chars not_tab x = true -> split TAB x = [x].
Proof.
  induction x as [|c x IH]; intros H; [reflexivity|].
  cbn [all_chars] in H. apply andb_true_iff in H as [Hc Hx].
  rewrite split_next, (IH Hx); [reflexivity | apply not_tab_start, Hc].
Qed.

Lemma split_tab_prefix (x y : string) :
  all_chars not_tab x = true -> split TAB (x +:+ TAB +:+ y) = x :: split TAB y.
Proof.
  induction x as [|c x IH]; intros H.
  - rewrite app_nil_l_str. unfold TAB. apply split_here.
  - cbn [all_chars] in H. apply andb_true_iff in H as [Hc Hx].
    rewrite app_cons_str, split_next, (IH Hx); [reflexivity | apply not_tab_start, Hc].
Qed.

(** Cutting at the tabs undoes the joining with tabs when no column holds
    a tab. *)
Lemma split_join_tab (l : list string) :
  l <> [] -> Forall (fun x => all_chars not_tab x = true) l ->
  split TAB (join TAB l) = l.
Proof.
  intros Hne H. induction H as [|x l Hx Hl IH]; [congruence|].
  destruct l as [|y l].
  - cbn [join]. apply split_tab_none, Hx.
  - rewrite join_cons by discriminate.
    rewrite (split_tab_prefix _ _ Hx), IH by discriminate. reflexivity.
Qed.

Lemma string_of_uint_no_tab (d : Decimal.uint) :
  all_chars not_tab (NilEmpty.string_of_uint d) = true.
Proof. induction d; cbn [NilEmpty.string_of_uint all_chars]; try rewrite IHd; reflexivity. Qed.

Lemma str_of_int_no_tab (n : Z) : all_chars not_tab (str_of_int n) = true.
Proof.
  unfold str_of_int. destruct (Z.to_int n) as [d|d]; cbn [NilEmpty.string_of_int].
  - apply string_of_uint_no_tab.
  - cbn [all_chars]. rewrite string_of_uint_no_tab. reflexivity.
Qed.

Lemma space_or_tab (c : ascii) : not_space c = true -> not_tab c = true.
Proof. destruct c as [[] [] [] [] [] [] [] []]; vm_compute; congruence. Qed.

Lemma word_not_tab (c : ascii) : is_word c = true -> not_tab c = true.
Proof. destruct c as [[] [] [] [] [] [] [] []]; vm_compute; congruence. Qed.

(** A feature line read back by cutting it at the tabs has exactly the
    nine columns that were written, provided the attribute column holds no
    tab: the seqid (a token), the type (a word), the two integers, the
    strand and the fixed columns never hold one. *)
Theorem nine_fields (seqid ty loc : string) (qs : list string) (line : string) :
  all_chars not_space seqid = true -> run_of is_word ty = true ->
  all_chars not_tab (format_gff_attributes (qualifier_map qs) ty) = true ->
  gff_line seqid ty loc qs = Ok line ->
  exists cols,
    line = join TAB cols +:+ NL /\ length cols = 9%nat
    /\ split TAB (join TAB cols) = cols
    /\ cols !! 0%nat = Some seqid /\ cols !! 1%nat = Some "GenBank"
    /\ cols !! 2%nat = Some ty /\ cols !! 5%nat = Some ".".
Proof.
  intros Hseq Hty Hattr. rewrite gff_line_ok. intros H. injection H as <-.
  exists (feature_columns seqid (ty, loc, qs)).
  unfold feature_line, feature_columns, location_of.
  destruct (parse_location_returns loc) as (a & b & Hloc & Hstrand & _).
  rewrite Hloc.
  split; [reflexivity|]. split; [reflexivity|].
  split; [|repeat split; reflexivity].
  apply split_join_tab; [discriminate|].
  repeat constructor.
  - apply (all_chars_impl not_space); [exact space_or_tab | exact Hseq].
  - apply (all_chars_impl is_word); [exact word_not_tab | apply run_of_all, Hty].
  - apply str_of_int_no_tab.
  - apply str_of_int_no_tab.
  - destruct Hstrand as [-> | ->]; reflexivity.
  - destruct (String.eqb ty "CDS"); reflexivity.
  - exact Hattr.
Qed.

Lemma nine_fields_witness :
  exists cols,
    join TAB ["AB123"; "GenBank"; "gene"; "100"; "200"; "."; "+"; "."; "ID=g1;Name=g1"]
      +:+ NL
    = join TAB cols +:+ NL /\ length cols = 9%nat
    /\ split TAB (join TAB cols) = cols
    /\ cols !! 0%nat = Some "AB123" /\ cols !! 1%nat = Some "GenBank"
    /\ cols !! 2%nat = Some "gene" /\ cols !! 5%nat = Some ".".
Proof.
  apply (nine_fields "AB123" "gene" "100..200"
           ["                     /locus_tag=" +:+ DQUOTE +:+ "g1" +:+ DQUOTE]).
  - reflexivity.
  - reflexivity.
  - vm_compute. reflexivity.
  - vm_compute. reflexivity.
Defined.

(** ** The seqid of a record *)

Lemma record_seqid_locus_witness : "AB123" = "AB123".
Proof.
  apply (record_seqid_locus
           ["LOCUS       OLD1 10 bp"; "ACCESSION   U00096";
            "LOCUS       AB123 500 bp"; "ACCESSION   U00097"]
           "AB123" "500" "AB123").
  - vm_compute. reflexivity.
  - vm_compute. reflexivity.
Defined.

Lemma record_seqid_accession_witness :
  record_seqid (["LOCUS       short"; "DEFINITION  x"]
                  ++ "ACCESSION   U00096 U00097" :: ["ACCESSION   Z1"; "VERSION     1"])
  = Ok "U00096".
Proof.
  apply (record_seqid_accession _ _ _ "ACCESSION" "U00096" ["U00097"]).
  - repeat constructor.
  - reflexivity.
  - reflexivity.
  - vm_compute. reflexivity.
  - vm_compute. reflexivity.
Defined.

Lemma record_seqid_default_witness :
  record_seqid ["LOCUS       short"; "DEFINITION  x"; "FEATURES             Location"]
  = Ok "unknown".
Proof. apply record_seqid_default. repeat constructor. Defined.


